(** * Kalshi market scanner: a shallow embedding of [main.py]

    The scanner fetches the open markets that close within a horizon,
    turns each of them into a view carrying the hours left until its
    close, sorts the views and renders them as a table.  This file
    embeds the functions of [main.py]:

    - [get_markets_closing_soon] (paginated fetch, enrichment, sort),
    - [format_time_until], [cents_to_dollars], [calculate_spread],
    - [display_markets] (row rendering and summary lines),
    - [load_credentials], [create_client] and [main] (the run as a
      whole, its output and its exit status).

    Python values are modelled as follows.  An [int] is a [Z].  A
    [float] is a binary64 number of the kernel ([PrimFloat.float]), so
    every arithmetic step rounds as it does in CPython.  A [str] is a
    [string] holding its UTF-8 text, its characters counted by [len].
    An attribute that may be [None] is an [option].  An exception is
    the left summand of [result].  The console is the list of what was
    printed on it. *)

From Stdlib Require Import ZArith List String Ascii Bool Lia.
From Stdlib Require Import Floats DecimalString QArith Qround.
From Stdlib Require Import Permutation Sorted.
From Stdlib Require Uint63.
Import ListNotations.

Set Warnings "-inexact-float".

Local Open Scope string_scope.
Local Open Scope Z_scope.

(* ================================================================= *)
(** ** The Python runtime the scanner relies on *)

Module Py.

(** Exceptions that the modelled code can raise. *)
Inductive exn : Type :=
| ValueError
| OverflowError
| ZeroDivisionError
| TypeError
| ApiException (status : Z) (reason : string).

(** A computation that returns a value or raises. *)
Definition result (A : Type) : Type := (exn + A)%type.

Definition ret {A : Type} (a : A) : result A := inr a.
Definition raise {A : Type} (e : exn) : result A := inl e.

Definition bind {A B : Type} (m : result A) (k : A -> result B) : result B :=
  match m with
  | inl e => inl e
  | inr a => k a
  end.

Declare Scope py_scope.
Delimit Scope py_scope with py.
Notation "x <- m ;; k" := (bind m (fun x => k))
  (at level 61, m at next level, right associativity) : py_scope.
Local Open Scope py_scope.

(** The truth value of an integer. *)
Definition truthy (n : Z) : bool := negb (n =? 0).

(** [v or d] where [v] is an integer attribute that may be [None]: [v]
    when it is true, which excludes [None] and [0], and [d] otherwise. *)
Definition or_else (v : option Z) (d : Z) : Z :=
  match v with
  | Some n => if truthy n then n else d
  | None => d
  end.

(** [str(n)] for an integer. *)
Definition str_int (n : Z) : string := NilZero.string_of_int (Z.to_int n).

(** *** Floats *)

(** An integer as an unrounded binary number. *)
Definition SF_of_Z (z : Z) : spec_float :=
  match z with
  | Z0 => S754_zero false
  | Zpos p => S754_finite false p 0
  | Zneg p => S754_finite true p 0
  end.

Definition SF_is_infinity (f : spec_float) : bool :=
  match f with
  | S754_infinity _ => true
  | _ => false
  end.

(** [float(z)], also the conversion that mixed arithmetic applies to an
    integer operand: round to nearest even, [OverflowError] beyond the
    range of a double. *)
Definition float_of_int (z : Z) : result float :=
  let f := binary_normalize prec emax z 0 false in
  if SF_is_infinity f then raise OverflowError else ret (SF2Prim f).

(** [a / b] on integers: the correctly rounded quotient. *)
Definition int_truediv (a b : Z) : result float :=
  if b =? 0 then raise ZeroDivisionError
  else
    let f := SFdiv prec emax (SF_of_Z a) (SF_of_Z b) in
    if SF_is_infinity f then raise OverflowError else ret (SF2Prim f).

(** [int(x)] on a float: truncation toward zero; [ValueError] on a NaN,
    [OverflowError] on an infinity. *)
Definition int_of_float (x : float) : result Z :=
  match Prim2SF x with
  | S754_nan => raise ValueError
  | S754_infinity _ => raise OverflowError
  | S754_zero _ => ret 0
  | S754_finite s m e =>
      let n := if s then Zneg m else Zpos m in
      ret (if 0 <=? e then n * 2 ^ e else Z.quot n (2 ^ (- e)))
  end.

(** C's [fmod]: the exact remainder of the truncated quotient, with the
    sign of the dividend. *)
Definition fmod (x y : float) : float :=
  match Prim2SF x, Prim2SF y with
  | S754_nan, _ | _, S754_nan => nan
  | S754_infinity _, _ => nan
  | _, S754_zero _ => nan
  | _, S754_infinity _ => x
  | S754_zero _, _ => x
  | S754_finite sx mx ex, S754_finite _ my ey =>
      let e := Z.min ex ey in
      let X := Zpos mx * 2 ^ (ex - e) in
      let Y := Zpos my * 2 ^ (ey - e) in
      let r := SF2Prim (binary_normalize prec emax (X mod Y) e false) in
      if sx then (- r)%float else r
  end.

(** [x % y] on floats, as CPython's [float_rem]: [fmod], then the sign
    of the divisor is given to the remainder. *)
Definition float_mod (x y : float) : result float :=
  if (y =? 0)%float then raise ZeroDivisionError
  else
    let m := fmod x y in
    if (m =? 0)%float then ret (if get_sign y then neg_zero else zero)
    else if negb (Bool.eqb (y <? 0)%float (m <? 0)%float) then ret (m + y)%float
    else ret m.

(** Round a non-negative fraction to the nearest integer, ties to even. *)
Definition round_half_even (num den : Z) : Z :=
  let q := num / den in
  let r := num mod den in
  match 2 * r ?= den with
  | Lt => q
  | Gt => q + 1
  | Eq => if Z.even q then q else q + 1
  end.

Definition two_digits (n : Z) : string :=
  if n <? 10 then "0" ++ str_int n else str_int n.

(** [format(x, ".2f")]: the exact binary value rounded to two decimals,
    ties to even. *)
Definition format_2f (x : float) : string :=
  match Prim2SF x with
  | S754_nan => "nan"
  | S754_infinity s => if s then "-inf" else "inf"
  | S754_zero s => (if s then "-" else "") ++ "0.00"
  | S754_finite s m e =>
      let n := if 0 <=? e then Zpos m * 2 ^ e * 100
               else round_half_even (Zpos m * 100) (2 ^ (- e)) in
      (if s then "-" else "") ++ str_int (n / 100) ++ "." ++ two_digits (n mod 100)
  end.

(** *** Strings *)

(** [s.replace(c, by)] for a one-character pattern. *)
Fixpoint replace_char (c : ascii) (by_ : string) (s : string) : string :=
  match s with
  | EmptyString => EmptyString
  | String a s' =>
      if Ascii.eqb a c then by_ ++ replace_char c by_ s'
      else String a (replace_char c by_ s')
  end.

(** A [str] is a sequence of characters (code points) and is held here
    as its UTF-8 text: a character is a byte that is not a continuation
    byte, [10xxxxxx], together with the continuation bytes that follow
    it. *)
Definition continuation (a : ascii) : bool :=
  match a with
  | Ascii _ _ _ _ _ _ b6 b7 => b7 && negb b6
  end.

(** [len(s)]: the number of characters. *)
Fixpoint len (s : string) : nat :=
  match s with
  | EmptyString => O
  | String a s' => if continuation a then len s' else S (len s')
  end.

(** [s[:n]]: the first [n] characters, each with all its bytes. *)
Fixpoint prefix (n : nat) (s : string) : string :=
  match s with
  | EmptyString => EmptyString
  | String a s' =>
      if continuation a then String a (prefix n s')
      else match n with
           | O => EmptyString
           | S n' => String a (prefix n' s')
           end
  end.

(** The truth value of a string that may be [None]. *)
Definition truthy_str (s : option string) : bool :=
  match s with
  | Some EmptyString => false
  | Some _ => true
  | None => false
  end.

(** *** Dates *)

(** A [datetime]: microseconds since the epoch, and whether the value
    carries a UTC offset. *)
Record datetime : Type := { micros : Z; tz_aware : bool }.

(** A [timedelta], in microseconds. *)
Definition timedelta : Type := Z.

(** [a - b]: an aware and a naive value do not subtract. *)
Definition datetime_sub (a b : datetime) : result timedelta :=
  if Bool.eqb (tz_aware a) (tz_aware b) then ret (micros a - micros b)
  else raise TypeError.

(** [td.total_seconds()]. *)
Definition total_seconds (td : timedelta) : result float :=
  int_truediv td 1000000.

(** [d.timestamp()] of an aware value: the seconds since the epoch. *)
Definition timestamp (d : datetime) : result float :=
  total_seconds (micros d).

(** [datetime.now(timezone.utc)] at clock reading [t], and any other
    aware value at that instant. *)
Definition utc (t : Z) : datetime := {| micros := t; tz_aware := true |}.

(** [list.sort(key=...)] over float keys: a stable ascending sort that
    compares keys with [<] only. *)
Section Sort.
Context {A : Type} (key : A -> float).

Fixpoint insert (x : A) (l : list A) : list A :=
  match l with
  | [] => [x]
  | y :: l' =>
      if (key y <? key x)%float then y :: insert x l'
      else x :: l
  end.

Fixpoint sort (l : list A) : list A :=
  match l with
  | [] => []
  | x :: l' => insert x (sort l')
  end.
End Sort.

End Py.

Import Py.
Local Open Scope py_scope.

(* ================================================================= *)
(** ** Constants *)

Definition HOURS_THRESHOLD : Z := 24.
Definition SPREAD_THRESHOLD_CENTS : Z := 10.

(* ================================================================= *)
(** ** Formatting *)

(** [format_time_until]: hours as a human-readable string. *)
Definition format_time_until (hours : float) : result string :=
  if (hours <? 1)%float then
    minutes <- int_of_float (hours * 60)%float ;;
    ret (str_int minutes ++ "m")
  else if (hours <? 24)%float then
    h <- int_of_float hours ;;
    hf <- float_of_int h ;;
    m <- int_of_float ((hours - hf) * 60)%float ;;
    ret (str_int h ++ "h " ++ str_int m ++ "m")
  else
    days <- int_of_float (hours / 24)%float ;;
    r <- float_mod hours 24 ;;
    h <- int_of_float r ;;
    ret (str_int days ++ "d " ++ str_int h ++ "h").

(** [cents_to_dollars]: cents as a dollar string. *)
Definition cents_to_dollars (cents : Z) : result string :=
  d <- int_truediv cents 100 ;;
  ret ("$" ++ format_2f d).

(* ================================================================= *)
(** ** Data model *)

(** A market as the API client hands it over. *)
Module Market.
Inductive close_time_t : Type :=
| Instant (d : datetime)
| Text (s : string).

Record t : Type := {
  title : string;
  yes_bid : option Z;
  yes_ask : option Z;
  no_bid : option Z;
  last_price : option Z;
  close_time : close_time_t
}.
End Market.

(** The arguments of one [get_markets] call. *)
Module Request.
Record t : Type := {
  status : string;
  min_close_ts : Z;
  max_close_ts : Z;
  cursor : option string;
  limit : Z
}.
End Request.

(** One page of markets. *)
Module Response.
Record t : Type := {
  markets : list Market.t;
  cursor : option string
}.
End Response.

(** An entry of the list that [get_markets_closing_soon] returns. *)
Module View.
Record t : Type := {
  market : Market.t;
  hours_until_close : float;
  close_time : datetime
}.
End View.

(* ================================================================= *)
(** ** Fetching, enriching and sorting *)

Section Pipeline.

(** The API client: a state and the listing call, which may raise. *)
Variable Client : Type.
Variable get_markets : Client -> Request.t -> result (Response.t * Client).

(** [datetime.fromisoformat]. *)
Variable fromisoformat : string -> result datetime.

(** The arguments of every listing request of one fetch. *)
Definition listing_request (min_close_ts max_close_ts : Z) (cursor : option string)
    : Request.t :=
  {| Request.status := "open";
     Request.min_close_ts := min_close_ts;
     Request.max_close_ts := max_close_ts;
     Request.cursor := cursor;
     Request.limit := 200 |}.

(** The [while True] loop of [get_markets_closing_soon]; [None] when
    [fuel] requests were not enough to reach an empty cursor. *)
Fixpoint fetch_pages (fuel : nat) (client : Client) (min_close_ts max_close_ts : Z)
    (cursor : option string) (markets : list Market.t)
    : option (result (list Market.t * Client)) :=
  match fuel with
  | O => None
  | S fuel' =>
      match get_markets client (listing_request min_close_ts max_close_ts cursor) with
      | inl e => Some (raise e)
      | inr (response, client') =>
          let markets' := (markets ++ Response.markets response)%list in
          let cursor' := Response.cursor response in
          if negb (truthy_str cursor') then Some (ret (markets', client'))
          else fetch_pages fuel' client' min_close_ts max_close_ts cursor' markets'
      end
  end.

(** The close time of a market as a [datetime]: a string is parsed,
    its [Z] suffix read as the UTC offset. *)
Definition normalize_close_time (market : Market.t) : result datetime :=
  match Market.close_time market with
  | Market.Text s => fromisoformat (replace_char "Z" "+00:00" s)
  | Market.Instant d => ret d
  end.

(** [(close_time - now).total_seconds() / 3600]. *)
Definition hours_left (now close_time : datetime) : result float :=
  delta <- datetime_sub close_time now ;;
  seconds <- total_seconds delta ;;
  ret (seconds / 3600)%float.

(** The body of the enrichment loop for one market: the view to
    append, if any. *)
Definition enrich_one (now : datetime) (market : Market.t) : result (option View.t) :=
  close_time <- normalize_close_time market ;;
  hours_until_close <- hours_left now close_time ;;
  if (0 <? hours_until_close)%float then
    ret (Some {| View.market := market;
                 View.hours_until_close := hours_until_close;
                 View.close_time := close_time |})
  else ret None.

(** The enrichment loop. *)
Fixpoint enrich (now : datetime) (markets : list Market.t) : result (list View.t) :=
  match markets with
  | [] => ret []
  | market :: rest =>
      v <- enrich_one now market ;;
      views <- enrich now rest ;;
      ret match v with
          | Some view => view :: views
          | None => views
          end
  end.

(** The bounds [(min_close_ts, max_close_ts)] of the closing window. *)
Definition time_window (now : datetime) (hours : Z) : result (Z * Z) :=
  ts <- timestamp now ;;
  span <- float_of_int (hours * 3600) ;;
  max_close_ts <- int_of_float (ts + span)%float ;;
  ts' <- timestamp now ;;
  min_close_ts <- int_of_float ts' ;;
  ret (min_close_ts, max_close_ts).

(** [get_markets_closing_soon]; [now_micros] is the clock reading of
    [datetime.now(timezone.utc)]. *)
Definition get_markets_closing_soon (fuel : nat) (client : Client)
    (now_micros : Z) (hours : Z) : option (result (list View.t * Client)) :=
  let now := utc now_micros in
  match time_window now hours with
  | inl e => Some (raise e)
  | inr (min_close_ts, max_close_ts) =>
      match fetch_pages fuel client min_close_ts max_close_ts None [] with
      | None => None
      | Some (inl e) => Some (raise e)
      | Some (inr (markets, client')) =>
          Some (views <- enrich now markets ;;
                ret (sort View.hours_until_close views, client'))
      end
  end.

End Pipeline.

(* ================================================================= *)
(** ** Spread *)

(** [calculate_spread]: the bid-ask spread in cents and whether it is
    wide. *)
Definition calculate_spread (market : Market.t) : Z * bool :=
  let yes_bid := or_else (Market.yes_bid market) 0 in
  let yes_ask := or_else (Market.yes_ask market) 0 in
  let spread :=
    if truthy yes_bid && truthy yes_ask then yes_ask - yes_bid
    else 0 in
  let is_wide := SPREAD_THRESHOLD_CENTS <? spread in
  (spread, is_wide).

(* ================================================================= *)
(** ** Rendering *)

(** What the console receives: the table of [rich], reduced to its
    title, its columns and the rows added to it, and printed lines. *)
Module Console.
Record column : Type := {
  header : string;
  style : option string;
  justify : option string;
  max_width : option Z
}.

Record row : Type := {
  market_cell : string;
  yes_cell : string;
  no_cell : string;
  spread_cell : string;
  time_cell : string
}.

Record table : Type := {
  title : string;
  columns : list column;
  rows : list row
}.

Inductive printed : Type :=
| Line (s : string)
| Table (t : table).

Definition add_column (t : table) (c : column) : table :=
  {| title := title t; columns := (columns t ++ [c])%list; rows := rows t |}.

Definition add_row (t : table) (r : row) : table :=
  {| title := title t; columns := columns t; rows := (rows t ++ [r])%list |}.
End Console.

Definition newline : string := String (ascii_of_nat 10) EmptyString.

(** The prices shown for a market: the bid, else the last price for the
    yes side, else the complement of the yes price for the no side. *)
Definition yes_price_of (market : Market.t) : Z :=
  or_else (Market.yes_bid market) (or_else (Market.last_price market) 0).

Definition no_price_of (market : Market.t) : Z :=
  let yes_price := yes_price_of market in
  or_else (Market.no_bid market) (if truthy yes_price then 100 - yes_price else 0).

(** The title cell. *)
Definition display_title (title : string) : string :=
  if (47 <? len title)%nat then prefix 47 title ++ "..."
  else title.

(** A price cell. *)
Definition price_cell (price : Z) : result string :=
  if truthy price then cents_to_dollars price else ret "-".

(** The spread cell and whether the spread is wide. *)
Definition spread_cell_of (market : Market.t) : result (string * bool) :=
  let '(spread, is_wide) := calculate_spread market in
  spread_str <- (if 0 <? spread then cents_to_dollars spread else ret "-") ;;
  if is_wide then ret ("[bold red]" ++ spread_str ++ " ![/bold red]", true)
  else ret (spread_str, false).

(** The body of the row loop of [display_markets]: the row added to the
    table and whether the wide-spread counter goes up. *)
Definition render_row (data : View.t) : result (Console.row * bool) :=
  let market := View.market data in
  let hours := View.hours_until_close data in
  let yes_price := yes_price_of market in
  let no_price := no_price_of market in
  sw <- spread_cell_of market ;;
  let '(spread_str, is_wide) := sw in
  let title := display_title (Market.title market) in
  yes_str <- price_cell yes_price ;;
  no_str <- price_cell no_price ;;
  time_str <- format_time_until hours ;;
  ret ({| Console.market_cell := title;
          Console.yes_cell := yes_str;
          Console.no_cell := no_str;
          Console.spread_cell := spread_str;
          Console.time_cell := time_str |}, is_wide).

(** The row loop, threading the table and the counter. *)
Fixpoint add_rows (markets_data : list View.t) (table : Console.table)
    (wide_spread_count : Z) : result (Console.table * Z) :=
  match markets_data with
  | [] => ret (table, wide_spread_count)
  | data :: rest =>
      r <- render_row data ;;
      let '(row, is_wide) := r in
      add_rows rest (Console.add_row table row)
        (if is_wide then wide_spread_count + 1 else wide_spread_count)
  end.

Definition empty_table : Console.table :=
  let t := {| Console.title := "Markets Closing Within " ++ str_int HOURS_THRESHOLD ++ " Hours";
              Console.columns := [];
              Console.rows := [] |} in
  let t := Console.add_column t
    {| Console.header := "Market"; Console.style := Some "cyan";
       Console.justify := None; Console.max_width := Some 50 |} in
  let t := Console.add_column t
    {| Console.header := "Yes Price"; Console.style := Some "green";
       Console.justify := Some "right"; Console.max_width := None |} in
  let t := Console.add_column t
    {| Console.header := "No Price"; Console.style := Some "red";
       Console.justify := Some "right"; Console.max_width := None |} in
  let t := Console.add_column t
    {| Console.header := "Spread"; Console.style := None;
       Console.justify := Some "right"; Console.max_width := None |} in
  Console.add_column t
    {| Console.header := "Time Left"; Console.style := Some "yellow";
       Console.justify := Some "right"; Console.max_width := None |}.

(** [display_markets]: what is printed, in order. *)
Definition display_markets (markets_data : list View.t) : result (list Console.printed) :=
  match markets_data with
  | [] => ret [Console.Line "[yellow]No markets closing in the next 24 hours.[/yellow]"]
  | _ =>
      tc <- add_rows markets_data empty_table 0 ;;
      let '(table, wide_spread_count) := tc in
      let total :=
        Console.Line (newline ++ "[bold]Total markets:[/bold] "
                      ++ str_int (Z.of_nat (List.length markets_data))) in
      if 0 <? wide_spread_count then
        threshold <- cents_to_dollars SPREAD_THRESHOLD_CENTS ;;
        ret [Console.Table table; total;
             Console.Line ("[bold red]Wide spreads (>" ++ threshold ++ "):[/bold red] "
                           ++ str_int wide_spread_count)]
      else ret [Console.Table table; total]
  end.

(* ================================================================= *)
(** ** Credentials, client and [main] *)

(** What can be raised inside the [try] of [main]: the two exceptions
    that [load_credentials] builds, each with its message, and what
    the file system, the API client and the pipeline raise. *)
Inductive raised : Type :=
| FileNotFoundError (message : string)
| ValueErrorOf (message : string)
| Runtime (e : exn).

(** The argument of [KalshiClient]. *)
Record Configuration : Type := {
  host : string;
  api_key_id : string;
  private_key_pem : string
}.

(** What [main] prints: a text with its style, or what
    [display_markets] prints. *)
Inductive output : Type :=
| Say (text : string) (style : option string)
| Render (p : Console.printed).

(** [os.getenv(name)] when it is true: neither [None] nor empty. *)
Definition set_value (v : option string) : option string :=
  if truthy_str v then v else None.

Section Orchestrator.

(** The environment once [load_dotenv] has run, and the file system. *)
Variable getenv : string -> option string.
Variable path_exists : string -> bool.
Variable read_text : string -> raised + string.

(** The API client: its constructor and its two calls. *)
Variable Client : Type.
Variable KalshiClient : Configuration -> result Client.
Variable get_exchange_status : Client -> result (bool * Client).
Variable get_markets : Client -> Request.t -> result (Response.t * Client).

(** [datetime.fromisoformat], and [str(e)] of a raised exception. *)
Variable fromisoformat : string -> result datetime.
Variable str_exn : exn -> string.

(** [load_credentials]. *)
Definition load_credentials : raised + (string * string) :=
  let api_key_id := getenv "KALSHI_API_KEY_ID" in
  let private_key_path := getenv "KALSHI_PRIVATE_KEY_PATH" in
  match set_value api_key_id with
  | None => inl (ValueErrorOf "KALSHI_API_KEY_ID not set in environment")
  | Some api_key_id =>
      match set_value private_key_path with
      | None => inl (ValueErrorOf "KALSHI_PRIVATE_KEY_PATH not set in environment")
      | Some private_key_path =>
          if negb (path_exists private_key_path) then
            inl (FileNotFoundError ("Private key not found: " ++ private_key_path))
          else
            match read_text private_key_path with
            | inl e => inl e
            | inr private_key => inr (api_key_id, private_key)
            end
      end
  end.

(** [create_client]. *)
Definition create_client (api_key_id private_key : string) : result Client :=
  KalshiClient {| host := "https://api.elections.kalshi.com/trade-api/v2";
                  api_key_id := api_key_id;
                  private_key_pem := private_key |}.

Definition dim : option string := Some "dim".

(** The [try] block of [main]: what it printed, and the exception that
    ended it, if any; [None] when [fuel] requests did not end the
    fetch. *)
Definition try_main (fuel : nat) (now_micros : Z) : option (list output * (raised + unit)) :=
  let out := [Say ("[bold]Kalshi Market Scanner[/bold]" ++ newline) None;
              Say "Loading credentials..." dim] in
  match load_credentials with
  | inl e => Some (out, inl e)
  | inr (api_key_id, private_key) =>
      let out := (out ++ [Say "Connecting to Kalshi API..." dim])%list in
      match create_client api_key_id private_key with
      | inl e => Some (out, inl (Runtime e))
      | inr client =>
          match get_exchange_status client with
          | inl e => Some (out, inl (Runtime e))
          | inr (trading_active, client) =>
              let out :=
                if trading_active then out
                else (out ++ [Say "[yellow]Warning: Trading is currently inactive[/yellow]"
                                None])%list in
              let out :=
                (out ++ [Say ("Fetching markets closing within "
                              ++ str_int HOURS_THRESHOLD ++ " hours...") dim])%list in
              match get_markets_closing_soon Client get_markets fromisoformat
                      fuel client now_micros HOURS_THRESHOLD with
              | None => None
              | Some (inl e) => Some (out, inl (Runtime e))
              | Some (inr (closing_soon, _)) =>
                  let out :=
                    (out ++ [Say ("Found " ++ str_int (Z.of_nat (List.length closing_soon))
                                  ++ " markets" ++ newline) dim])%list in
                  match display_markets closing_soon with
                  | inl e => Some (out, inl (Runtime e))
                  | inr shown => Some ((out ++ map Render shown)%list, inr tt)
                  end
              end
          end
      end
  end.

(** The [except] clauses of [main], in their order: what each prints. *)
Definition report (e : raised) : list output :=
  match e with
  | FileNotFoundError message =>
      [Say ("[red]Error:[/red] " ++ message) None;
       Say (newline ++ "Make sure your .env file points to a valid private key.") None]
  | ValueErrorOf message =>
      [Say ("[red]Configuration Error:[/red] " ++ message) None;
       Say (newline ++ "Copy .env.example to .env and add your credentials.") None]
  | Runtime Py.ValueError =>
      [Say ("[red]Configuration Error:[/red] " ++ str_exn Py.ValueError) None;
       Say (newline ++ "Copy .env.example to .env and add your credentials.") None]
  | Runtime (ApiException status reason) =>
      (Say ("[red]API Error (" ++ str_int status ++ "):[/red] " ++ reason) None
       :: (if status =? 401 then
             [Say (newline ++ "Check that your API key ID and private key are correct.") None]
           else if status =? 403 then
             [Say (newline ++ "Your API key may not have permission for this operation.")
                  None]
           else []))%list
  | Runtime e => [Say ("[red]Error:[/red] " ++ str_exn e) None]
  end.

(** [main]: what is printed and the exit status of the process. *)
Definition main (fuel : nat) (now_micros : Z) : option (list output * Z) :=
  match try_main fuel now_micros with
  | None => None
  | Some (out, inr _) => Some (out, 0)
  | Some (out, inl e) => Some ((out ++ report e)%list, 1)
  end.

End Orchestrator.

(* ================================================================= *)
(** ** Notions used to state the properties *)

(** *** The order of floats

    A float that is not a NaN is ranked by a triple of integers that
    the lexicographic order compares as the float comparison does. *)

Definition sf_is_nan (f : spec_float) : bool :=
  match f with
  | S754_nan => true
  | _ => false
  end.

Definition sf_rank (f : spec_float) : Z * Z * Z :=
  match f with
  | S754_nan => (0, 0, 0)
  | S754_zero _ => (0, 0, 0)
  | S754_infinity s => (if s then -2 else 2, 0, 0)
  | S754_finite s m e => if s then (-1, - e, Zneg m) else (1, e, Zpos m)
  end.

Definition lex_compare (a b : Z * Z * Z) : comparison :=
  let '(a1, a2, a3) := a in
  let '(b1, b2, b3) := b in
  match a1 ?= b1 with
  | Eq => match a2 ?= b2 with
          | Eq => a3 ?= b3
          | c => c
          end
  | c => c
  end.

(** A float that carries the sign [s], a NaN carrying any. *)
Definition sf_sign_is (s : bool) (f : spec_float) : Prop :=
  match f with
  | S754_nan => True
  | S754_zero s' | S754_infinity s' | S754_finite s' _ _ => s' = s
  end.

(** A float that takes part in comparisons as a number does. *)
Definition comparable (x : float) : Prop := sf_is_nan (Prim2SF x) = false.

Definition rank (x : float) : Z * Z * Z := sf_rank (Prim2SF x).

(** The invariant of the views that enrichment produces. *)
Definition closes_later (v : View.t) : Prop :=
  (0 <? View.hours_until_close v)%float = true.

(** [a] does not close after [b]. *)
Definition closes_no_later (a b : View.t) : Prop :=
  (View.hours_until_close a <=? View.hours_until_close b)%float = true.

(** The views of a list that close exactly [k] hours from now, in the
    order of the list. *)
Definition closing_at (k : float) (views : list View.t) : list View.t :=
  filter (fun v => (View.hours_until_close v =? k)%float) views.

(** *** Conversations with the listing capability *)

Section Conversation.
Variable Client : Type.
Variable get_markets : Client -> Request.t -> result (Response.t * Client).

(** [exhausts lo hi client cursor pages client']: asked with [cursor]
    and then with each cursor it hands back, the capability answers
    with [pages], every page but the last carrying a non-empty
    cursor, the last an empty one, and is left in state [client']. *)
Inductive exhausts (lo hi : Z)
    : Client -> option string -> list Response.t -> Client -> Prop :=
| exhausts_last (client : Client) (cursor : option string)
      (page : Response.t) (client' : Client) :
    get_markets client (listing_request lo hi cursor) = inr (page, client') ->
    truthy_str (Response.cursor page) = false ->
    exhausts lo hi client cursor [page] client'
| exhausts_next (client : Client) (cursor : option string)
      (page : Response.t) (client' : Client)
      (pages : list Response.t) (client'' : Client) :
    get_markets client (listing_request lo hi cursor) = inr (page, client') ->
    truthy_str (Response.cursor page) = true ->
    exhausts lo hi client' (Response.cursor page) pages client'' ->
    exhausts lo hi client cursor (page :: pages) client''.

(** The same capability, keeping a record of every request it
    answered and of the page it answered with. *)
Definition logged (state : Client * list (Request.t * Response.t)) (request : Request.t)
    : result (Response.t * (Client * list (Request.t * Response.t))) :=
  let '(client, log) := state in
  match get_markets client request with
  | inl e => inl e
  | inr (page, client') => inr (page, (client', (log ++ [(request, page)])%list))
  end.
End Conversation.

Arguments exhausts {Client}.
Arguments logged {Client}.

(** The number of pages that carry a non-empty cursor. *)
Definition nonempty_cursors (pages : list Response.t) : nat :=
  List.length (filter (fun page => truthy_str (Response.cursor page)) pages).

(** The markets of all pages, in page order. *)
Definition all_markets (pages : list Response.t) : list Market.t :=
  List.concat (map Response.markets pages).

(** A capability that plays a script: it answers with the next page of
    its state, whatever the request, and fails once the script is over. *)
Definition scripted (script : list Response.t) (request : Request.t)
    : result (Response.t * list Response.t) :=
  match script with
  | [] => raise (ApiException 500 "no page left")
  | page :: rest => ret (page, rest)
  end.

(** A script of [S n] empty pages, the last one ending the listing. *)
Fixpoint countdown (n : nat) : list Response.t :=
  match n with
  | O => [{| Response.markets := []; Response.cursor := None |}]
  | S n' => {| Response.markets := []; Response.cursor := Some "next" |} :: countdown n'
  end.

(** A capability that hands back the same cursor forever. *)
Definition repeating (client : unit) (request : Request.t) : result (Response.t * unit) :=
  ret ({| Response.markets := []; Response.cursor := Some "again" |}, tt).

(** The requests that the loop issues for [pages], each with the page
    that answers it: the first with [cursor], each later one with the
    cursor of the page before, all with the same window. *)
Fixpoint transcript (lo hi : Z) (cursor : option string) (pages : list Response.t)
    : list (Request.t * Response.t) :=
  match pages with
  | [] => []
  | page :: rest =>
      (listing_request lo hi cursor, page) :: transcript lo hi (Response.cursor page) rest
  end.

(** *** Enrichment *)

(** Whether enrichment keeps a market. *)
Definition keeps (fromisoformat : string -> result datetime) (now : datetime)
    (market : Market.t) : bool :=
  match enrich_one fromisoformat now market with
  | inr (Some _) => true
  | _ => false
  end.

(** The view of [market] with [hours] left, closing at instant [t]. *)
Definition view_of (market : Market.t) (hours : float) (t : Z) : View.t :=
  {| View.market := market;
     View.hours_until_close := hours;
     View.close_time := utc t |}.

(** A market without quotes that closes at instant [t]. *)
Definition unquoted_market (title : string) (t : Z) : Market.t :=
  {| Market.title := title;
     Market.yes_bid := None;
     Market.yes_ask := None;
     Market.no_bid := None;
     Market.last_price := None;
     Market.close_time := Market.Instant (utc t) |}.

(** A parser that accepts no string. *)
Definition no_fromisoformat (s : string) : result datetime := raise ValueError.

(** A clock reading, 2023-11-14 22:13:20 UTC, and three markets that
    close half an hour after it, 25 hours after it and one hour before
    it. *)
Definition sample_now : Z := 1700000000000000.
Definition closing_soon : Market.t := unquoted_market "soon" (sample_now + 1800000000).
Definition closing_beyond : Market.t := unquoted_market "beyond" (sample_now + 90000000000).
Definition closed_already : Market.t := unquoted_market "past" (sample_now - 3600000000).

(** A capability that hands over the three markets in one page,
    whatever window the request asks for. *)
Definition three_markets_page : list Response.t :=
  [{| Response.markets := [closing_soon; closing_beyond; closed_already];
      Response.cursor := None |}].

(** *** The value of a float *)

(** The exact value of a finite float, as a fraction. *)
Definition float_value (x : float) : option Q :=
  match Prim2SF x with
  | S754_zero _ => Some (inject_Z 0)
  | S754_finite s m e =>
      let n := if s then Zneg m else Zpos m in
      Some (if 0 <=? e then inject_Z (n * 2 ^ e)
            else Qmake n (2 ^ Z.to_pos (- e)))
  | _ => None
  end.

(** Truncation toward zero: the floor of a non-negative fraction, the
    ceiling of a negative one. *)
Definition truncate (q : Q) : Z :=
  if Qle_bool (inject_Z 0) q then Qfloor q else Qceiling q.

(** *** Quotes, prices and cells *)

(** An optional amount that is present: not [None] and not zero. *)
Definition quoted (v : option Z) (n : Z) : Prop := v = Some n /\ n <> 0.

(** An optional amount that is absent: [None] or zero. *)
Definition unquoted (v : option Z) : Prop := v = None \/ v = Some 0.

(** The amount of an optional attribute when it is present. *)
Definition present (v : option Z) : option Z :=
  match v with
  | Some n => if n =? 0 then None else Some n
  | None => None
  end.

(** The yes price in the words of the specification: the yes bid if
    present, else the last price if present, else absent. *)
Definition yesPrice (market : Market.t) : option Z :=
  match present (Market.yes_bid market) with
  | Some bid => Some bid
  | None => present (Market.last_price market)
  end.

(** The no price in the words of the specification: the no bid if
    present, else [100 - yesPrice] if the yes price is present, else
    absent. *)
Definition noPrice (market : Market.t) : option Z :=
  match present (Market.no_bid market) with
  | Some bid => Some bid
  | None =>
      match yesPrice market with
      | Some yes => Some (100 - yes)
      | None => None
      end
  end.

(** The price format of the specification: an absent or zero price is
    a dash, any other the dollar string. *)
Definition formatPrice (price : option Z) : result string :=
  match present price with
  | Some cents => cents_to_dollars cents
  | None => ret "-"
  end.

(** A market with the given quotes. *)
Definition market_with (yes_bid yes_ask no_bid last_price : option Z) : Market.t :=
  {| Market.title := "";
     Market.yes_bid := yes_bid;
     Market.yes_ask := yes_ask;
     Market.no_bid := no_bid;
     Market.last_price := last_price;
     Market.close_time := Market.Instant (utc 0) |}.

(** A spread cell in the flagged style. *)
Definition flagged (cell : string) : Prop :=
  exists inner : string, cell = "[bold red]" ++ inner ++ " ![/bold red]".

(** Whether the spread of the market of a view is wide. *)
Definition is_wide (data : View.t) : bool := snd (calculate_spread (View.market data)).

(** The number of views with a wide spread. *)
Definition wide_count (markets_data : list View.t) : Z :=
  Z.of_nat (List.length (filter is_wide markets_data)).

(** What the row loop adds for one view: its row, the counter going up
    when the spread is wide, and the spread cell flagged exactly then. *)
Definition rendered (data : View.t) (row : Console.row) : Prop :=
  render_row data = inr (row, is_wide data)
  /\ (flagged (Console.spread_cell row) <-> is_wide data = true).

(** The summary lines. *)
Definition total_line (markets_data : list View.t) : string :=
  newline ++ "[bold]Total markets:[/bold] " ++ str_int (Z.of_nat (List.length markets_data)).

Definition wide_line (count : Z) : string :=
  "[bold red]Wide spreads (>$0.10):[/bold red] " ++ str_int count.

(** The integer that the code keeps for an optional price, 0 standing
    for an absent one. *)
Definition amount (price : option Z) : Z :=
  match price with
  | Some n => n
  | None => 0
  end.

(** Four markets of which two and two close at the same instant. *)
Definition tied_markets : list Market.t :=
  [unquoted_market "a" (sample_now + 7200000000);
   unquoted_market "b" (sample_now + 1800000000);
   unquoted_market "c" (sample_now + 7200000000);
   unquoted_market "d" (sample_now + 1800000000)].

(** The script of a listing that fits on one page. *)
Definition one_page (markets : list Market.t) : list Response.t :=
  [{| Response.markets := markets; Response.cursor := None |}].

(** A title of 60 characters. *)
Definition sixty_characters : string :=
  "Will the closing price be above the threshold on Friday, ok?".

(** A title of 47 characters, one of them outside ASCII: 49 bytes. *)
Definition fed_title : string :=
  "Will the Fed’s target rate be above 5% in 2026?".

(** A title of 63 characters whose 47th is outside ASCII. *)
Definition cafe_title : string :=
  "Will the Fed’s rate sit above 5% after the café vote in Zürich?".

(** A text of ASCII characters only. *)
Fixpoint ascii_only (s : string) : bool :=
  match s with
  | EmptyString => true
  | String (Ascii _ _ _ _ _ _ _ b7) s' => negb b7 && ascii_only s'
  end.

(** A text that does not begin inside a character. *)
Definition whole_characters (s : string) : Prop :=
  match s with
  | EmptyString => True
  | String a _ => continuation a = false
  end.

(** Three views to render: a wide spread, no quote, a narrow spread. *)
Definition sample_views : list View.t :=
  [view_of (market_with (Some 40) (Some 55) None None) 0.5 0;
   view_of (market_with None None None (Some 62)) 3.25 0;
   view_of (market_with (Some 40) (Some 45) (Some 58) None) 30 0].

(** *** Conversations that end in an exception *)

Section Failure.
Variable Client : Type.
Variable get_markets : Client -> Request.t -> result (Response.t * Client).

(** [breaks lo hi client cursor pages e]: asked with [cursor] and then
    with each cursor it hands back, the capability answers with
    [pages], each carrying a non-empty cursor, and raises [e] at the
    next request. *)
Inductive breaks (lo hi : Z)
    : Client -> option string -> list Response.t -> exn -> Prop :=
| breaks_now (client : Client) (cursor : option string) (e : exn) :
    get_markets client (listing_request lo hi cursor) = inl e ->
    breaks lo hi client cursor [] e
| breaks_next (client : Client) (cursor : option string)
      (page : Response.t) (client' : Client)
      (pages : list Response.t) (e : exn) :
    get_markets client (listing_request lo hi cursor) = inr (page, client') ->
    truthy_str (Response.cursor page) = true ->
    breaks lo hi client' (Response.cursor page) pages e ->
    breaks lo hi client cursor (page :: pages) e.
End Failure.

Arguments breaks {Client}.

(** A market returns from the enrichment loop, with a view or without. *)
Definition enriches (fromisoformat : string -> result datetime) (now : datetime)
    (market : Market.t) : Prop :=
  exists v : option View.t, enrich_one fromisoformat now market = inr v.

(** A view holds what the enrichment loop computed for its market. *)
Definition view_matches (fromisoformat : string -> result datetime) (now : datetime)
    (view : View.t) : Prop :=
  normalize_close_time fromisoformat (View.market view) = inr (View.close_time view)
  /\ hours_left now (View.close_time view) = inr (View.hours_until_close view).

(** Whether a character occurs in a string, and how often. *)
Fixpoint occurs (c : ascii) (s : string) : bool :=
  match s with
  | EmptyString => false
  | String a s' => Ascii.eqb a c || occurs c s'
  end.

Fixpoint occurrences (c : ascii) (s : string) : nat :=
  match s with
  | EmptyString => O
  | String a s' => ((if Ascii.eqb a c then 1 else 0) + occurrences c s')%nat
  end.

(** A market whose close time is a [datetime] without offset. *)
Definition naive_market (title : string) (t : Z) : Market.t :=
  {| Market.title := title;
     Market.yes_bid := None;
     Market.yes_ask := None;
     Market.no_bid := None;
     Market.last_price := None;
     Market.close_time := Market.Instant {| micros := t; tz_aware := false |} |}.

(** A market whose close time is a string. *)
Definition text_market (title : string) (close_time : string) : Market.t :=
  {| Market.title := title;
     Market.yes_bid := None;
     Market.yes_ask := None;
     Market.no_bid := None;
     Market.last_price := None;
     Market.close_time := Market.Text close_time |}.

(** A parser that knows one string. *)
Definition one_fromisoformat (s : string) : result datetime :=
  if String.eqb s "2023-11-14T22:43:20+00:00" then ret (utc (sample_now + 1800000000))
  else raise ValueError.

(** *** Whole seconds and whole cents *)

(** The integers from [a] on, [n] of them. *)
Fixpoint zrange (a : Z) (n : nat) : list Z :=
  match n with
  | O => []
  | S n' => a :: zrange (a + 1) n'
  end.

(** The time left in whole units, computed on integers. *)
Definition exact_time (seconds : Z) : string :=
  if seconds <? 3600 then str_int (seconds / 60) ++ "m"
  else if seconds <? 86400 then
    str_int (seconds / 3600) ++ "h " ++ str_int (seconds mod 3600 / 60) ++ "m"
  else str_int (seconds / 86400) ++ "d " ++ str_int (seconds mod 86400 / 3600) ++ "h".

(** The same with one minute less. *)
Definition minute_short (seconds : Z) : string :=
  str_int (seconds / 3600) ++ "h " ++ str_int (seconds mod 3600 / 60 - 1) ++ "m".

(** Whether the time cell of a market that closes [seconds] seconds
    after the captured [now] is as expected: the hours of the
    enrichment loop are above zero and their format is [exact_time],
    or [minute_short] at a whole minute between 1 and 24 hours. *)
Definition time_cell_checked (seconds : Z) : bool :=
  match hours_left (utc 0) (utc (0 + seconds * 1000000)) with
  | inr hours =>
      (0 <? hours)%float
      && match format_time_until hours with
         | inr cell =>
             String.eqb cell (exact_time seconds)
             || ((3600 <=? seconds) && (seconds <? 86400) && (seconds mod 60 =? 0)
                 && String.eqb cell (minute_short seconds))
         | inl _ => false
         end
  | inl _ => false
  end.

(** Cents as dollars, computed on integers. *)
Definition exact_dollars (cents : Z) : string :=
  "$" ++ (if cents <? 0 then "-" else "")
  ++ str_int (Z.abs cents / 100) ++ "." ++ two_digits (Z.abs cents mod 100).

Definition dollars_checked (cents : Z) : bool :=
  match cents_to_dollars cents with
  | inr s => String.eqb s (exact_dollars cents)
  | inl _ => false
  end.

(** *** Rows *)

(** A view renders to a row. *)
Definition renders (data : View.t) : Prop :=
  exists r : Console.row * bool, render_row data = inr r.

(** *** Runs of [main] *)

(** An environment variable that [load_credentials] takes as not set. *)
Definition unset (v : option string) : Prop := v = None \/ v = Some "".

(** The lines that [main] prints on its way to the table. *)
Definition banner : list output :=
  [Say ("[bold]Kalshi Market Scanner[/bold]" ++ newline) None;
   Say "Loading credentials..." dim].

Definition connecting : output := Say "Connecting to Kalshi API..." dim.

Definition inactive_warning : output :=
  Say "[yellow]Warning: Trading is currently inactive[/yellow]" None.

Definition fetching : output := Say "Fetching markets closing within 24 hours..." dim.

Definition found (n : nat) : output :=
  Say ("Found " ++ str_int (Z.of_nat n) ++ " markets" ++ newline) dim.

(** What [main] has printed when it starts to fetch. *)
Definition opening (trading_active : bool) : list output :=
  (banner ++ connecting :: (if trading_active then [] else [inactive_warning])
   ++ [fetching])%list.

(** A line of text, as opposed to what [display_markets] prints. *)
Definition is_say (o : output) : Prop :=
  match o with
  | Say _ _ => True
  | Render _ => False
  end.

(** An environment with both variables set, a file system that holds
    the key, and a client that plays a script. *)
Definition sample_getenv (name : string) : option string :=
  if String.eqb name "KALSHI_API_KEY_ID" then Some "key-id"
  else if String.eqb name "KALSHI_PRIVATE_KEY_PATH" then Some "kalshi.pem"
  else None.

Definition sample_exists (path : string) : bool := String.eqb path "kalshi.pem".

Definition sample_read (path : string) : raised + string := inr "PEM".

Definition sample_connect (script : list Response.t) (config : Configuration)
    : result (list Response.t) :=
  ret script.

Definition sample_status (trading_active : bool) (client : list Response.t)
    : result (bool * list Response.t) :=
  ret (trading_active, client).

Definition sample_str (e : exn) : string :=
  match e with
  | ValueError => "Invalid isoformat string"
  | ApiException _ reason => reason
  | _ => "error"
  end.

(** A capability that refuses every request. *)
Definition denied (client : list Response.t) (request : Request.t)
    : result (Response.t * list Response.t) :=
  raise (ApiException 401 "Unauthorized").

(* ================================================================= *)
(** * Properties *)

(** ** The error monad *)

Lemma bind_ret_inv {A B : Type} (m : result A) (k : A -> result B) (b : B) :
  bind m k = inr b -> exists a, m = inr a /\ k a = inr b.
Proof.
  destruct m as [e | a]; simpl; intros H.
  - discriminate.
  - exists a. split; [reflexivity | exact H].
Qed.

Ltac bind_inv H :=
  let a := fresh "a" in
  let Ha := fresh "Ha" in
  apply bind_ret_inv in H; destruct H as (a & Ha & H).

(** ** Comparison of floats *)

Lemma SFcompare_rank (f1 f2 : spec_float) :
  sf_is_nan f1 = false -> sf_is_nan f2 = false ->
  SFcompare f1 f2 = Some (lex_compare (sf_rank f1) (sf_rank f2)).
Proof.
  destruct f1 as [s1 | s1 | | s1 m1 e1], f2 as [s2 | s2 | | s2 m2 e2];
    simpl; try discriminate; intros _ _;
    try (destruct s1; reflexivity); try (destruct s2; reflexivity);
    try (destruct s1, s2; reflexivity).
  destruct s1, s2; simpl; try reflexivity.
  rewrite Z.compare_opp, (Z.compare_antisym e1 e2).
  destruct (e1 ?= e2); reflexivity.
Qed.

Lemma SFcompare_some_comparable (f1 f2 : spec_float) (c : comparison) :
  SFcompare f1 f2 = Some c -> sf_is_nan f1 = false /\ sf_is_nan f2 = false.
Proof.
  destruct f1, f2; simpl; intros H; try discriminate; split; reflexivity.
Qed.

Lemma lex_compare_antisym (a b : Z * Z * Z) :
  lex_compare b a = CompOpp (lex_compare a b).
Proof.
  destruct a as [[a1 a2] a3], b as [[b1 b2] b3]; simpl.
  rewrite (Z.compare_antisym a1 b1), (Z.compare_antisym a2 b2), (Z.compare_antisym a3 b3).
  destruct (a1 ?= b1), (a2 ?= b2), (a3 ?= b3); reflexivity.
Qed.

Ltac lex_cases :=
  repeat match goal with
         | |- context [?x ?= ?y] => destruct (Z.compare_spec x y)
         | H : context [?x ?= ?y] |- _ => destruct (Z.compare_spec x y)
         end;
  try lia; try congruence.

Lemma lex_compare_le_trans (a b c : Z * Z * Z) :
  lex_compare a b <> Gt -> lex_compare b c <> Gt -> lex_compare a c <> Gt.
Proof.
  destruct a as [[a1 a2] a3], b as [[b1 b2] b3], c as [[c1 c2] c3]; simpl.
  lex_cases.
Qed.

Lemma lex_compare_eq_lt (a b k : Z * Z * Z) :
  lex_compare a k = Eq -> lex_compare b k = Eq -> lex_compare a b <> Lt.
Proof.
  destruct a as [[a1 a2] a3], b as [[b1 b2] b3], k as [[k1 k2] k3]; simpl.
  lex_cases.
Qed.

Lemma ltb_rank (x y : float) :
  comparable x -> comparable y ->
  (x <? y)%float = match lex_compare (rank x) (rank y) with Lt => true | _ => false end.
Proof.
  intros Hx Hy. rewrite FloatAxioms.ltb_spec. unfold SFltb.
  rewrite (SFcompare_rank _ _ Hx Hy). reflexivity.
Qed.

Lemma leb_rank (x y : float) :
  comparable x -> comparable y ->
  (x <=? y)%float = match lex_compare (rank x) (rank y) with Gt => false | _ => true end.
Proof.
  intros Hx Hy. rewrite FloatAxioms.leb_spec. unfold SFleb, rank.
  rewrite (SFcompare_rank _ _ Hx Hy).
  destruct (lex_compare (sf_rank (Prim2SF x)) (sf_rank (Prim2SF y))); reflexivity.
Qed.

Lemma ltb_true_comparable (x y : float) :
  (x <? y)%float = true -> comparable x /\ comparable y.
Proof.
  rewrite FloatAxioms.ltb_spec. unfold SFltb, comparable.
  destruct (SFcompare (Prim2SF x) (Prim2SF y)) as [c |] eqn:E; [| discriminate].
  intros _. exact (SFcompare_some_comparable _ _ _ E).
Qed.

Lemma leb_true_comparable (x y : float) :
  (x <=? y)%float = true -> comparable x /\ comparable y.
Proof.
  rewrite FloatAxioms.leb_spec. unfold SFleb, comparable.
  destruct (SFcompare (Prim2SF x) (Prim2SF y)) as [c |] eqn:E; [| discriminate].
  intros _. exact (SFcompare_some_comparable _ _ _ E).
Qed.

Lemma eqb_true_rank (x y : float) :
  (x =? y)%float = true ->
  comparable x /\ comparable y /\ lex_compare (rank x) (rank y) = Eq.
Proof.
  rewrite FloatAxioms.eqb_spec. unfold SFeqb, comparable, rank.
  destruct (SFcompare (Prim2SF x) (Prim2SF y)) as [c |] eqn:E; [| discriminate].
  destruct (SFcompare_some_comparable _ _ _ E) as [Hx Hy].
  rewrite (SFcompare_rank _ _ Hx Hy) in E. injection E as E.
  destruct c; try discriminate. intros _. auto.
Qed.

(** Of two numbers, one is below the other or the other is not above. *)
Lemma ltb_false_leb (x y : float) :
  comparable x -> comparable y -> (x <? y)%float = false -> (y <=? x)%float = true.
Proof.
  intros Hx Hy. rewrite (ltb_rank x y Hx Hy), (leb_rank y x Hy Hx).
  rewrite (lex_compare_antisym (rank x) (rank y)).
  destruct (lex_compare (rank x) (rank y)); simpl; congruence.
Qed.

Lemma ltb_true_leb (x y : float) :
  (x <? y)%float = true -> (x <=? y)%float = true.
Proof.
  intros H. destruct (ltb_true_comparable _ _ H) as [Hx Hy].
  rewrite (ltb_rank x y Hx Hy) in H. rewrite (leb_rank x y Hx Hy).
  destruct (lex_compare (rank x) (rank y)); congruence.
Qed.

Lemma leb_trans (x y z : float) :
  (x <=? y)%float = true -> (y <=? z)%float = true -> (x <=? z)%float = true.
Proof.
  intros Hxy Hyz.
  destruct (leb_true_comparable _ _ Hxy) as [Hx Hy].
  destruct (leb_true_comparable _ _ Hyz) as [_ Hz].
  rewrite (leb_rank _ _ Hx Hy) in Hxy. rewrite (leb_rank _ _ Hy Hz) in Hyz.
  rewrite (leb_rank _ _ Hx Hz).
  assert (H : lex_compare (rank x) (rank z) <> Gt).
  { apply (lex_compare_le_trans _ (rank y)).
    - destruct (lex_compare (rank x) (rank y)); congruence.
    - destruct (lex_compare (rank y) (rank z)); congruence. }
  destruct (lex_compare (rank x) (rank z)); congruence.
Qed.

Lemma leb_true_ltb_false (x y : float) :
  (x <=? y)%float = true -> (y <? x)%float = false.
Proof.
  intros H. destruct (leb_true_comparable _ _ H) as [Hx Hy].
  rewrite (leb_rank _ _ Hx Hy) in H. rewrite (ltb_rank _ _ Hy Hx).
  rewrite (lex_compare_antisym (rank x) (rank y)).
  destruct (lex_compare (rank x) (rank y)); simpl; congruence.
Qed.

(** Two keys equal to a third are not strictly ordered. *)
Lemma eqb_eqb_ltb (x y k : float) :
  (x =? k)%float = true -> (y =? k)%float = true -> (x <? y)%float = false.
Proof.
  intros Hx Hy.
  destruct (eqb_true_rank _ _ Hx) as (Cx & _ & Ex).
  destruct (eqb_true_rank _ _ Hy) as (Cy & _ & Ey).
  rewrite (ltb_rank _ _ Cx Cy).
  pose proof (lex_compare_eq_lt _ _ _ Ex Ey) as H.
  destruct (lex_compare (rank x) (rank y)); congruence.
Qed.

Lemma lex_compare_refl (a : Z * Z * Z) : lex_compare a a = Eq.
Proof.
  destruct a as [[a1 a2] a3]; simpl. rewrite !Z.compare_refl. reflexivity.
Qed.

Lemma eqb_rank (x y : float) :
  comparable x -> comparable y ->
  (x =? y)%float = match lex_compare (rank x) (rank y) with Eq => true | _ => false end.
Proof.
  intros Hx Hy. rewrite FloatAxioms.eqb_spec. unfold SFeqb, rank.
  rewrite (SFcompare_rank _ _ Hx Hy). reflexivity.
Qed.

Lemma eqb_refl (x : float) : comparable x -> (x =? x)%float = true.
Proof.
  intros Hx. rewrite (eqb_rank x x Hx Hx), lex_compare_refl. reflexivity.
Qed.

Lemma leb_antisym_eqb (x y : float) :
  (x <=? y)%float = true -> (y <=? x)%float = true -> (x =? y)%float = true.
Proof.
  intros Hxy Hyx. destruct (leb_true_comparable _ _ Hxy) as [Hx Hy].
  rewrite (leb_rank _ _ Hx Hy) in Hxy. rewrite (leb_rank _ _ Hy Hx) in Hyx.
  rewrite (eqb_rank _ _ Hx Hy).
  rewrite (lex_compare_antisym (rank x) (rank y)) in Hyx.
  destruct (lex_compare (rank x) (rank y)); simpl in *; congruence.
Qed.

Lemma eqb_true_leb (x y : float) : (x =? y)%float = true -> (x <=? y)%float = true.
Proof.
  intros H. destruct (eqb_true_rank _ _ H) as (Hx & Hy & E).
  rewrite (leb_rank _ _ Hx Hy), E. reflexivity.
Qed.

(** ** Signs of floats *)

Lemma binary_round_aux_sign (s : bool) (m e : Z) (l : location) :
  sf_sign_is s (binary_round_aux prec emax s m e l).
Proof.
  unfold binary_round_aux.
  destruct (shr_fexp prec emax m e l) as [mrs' e'].
  destruct (shr_fexp prec emax _ e' loc_Exact) as [mrs'' e''].
  destruct (shr_m mrs''); [reflexivity | | exact I].
  destruct (e'' <=? emax - prec); reflexivity.
Qed.

Lemma binary_round_sign (s : bool) (m : positive) (e : Z) :
  sf_sign_is s (binary_round prec emax s m e).
Proof.
  unfold binary_round. destruct (shl_align _ _ _) as [mz ez].
  apply binary_round_aux_sign.
Qed.

Lemma binary_normalize_sign (z e : Z) :
  0 <= z -> sf_sign_is false (binary_normalize prec emax z e false).
Proof.
  intros Hz. destruct z as [| p | p]; simpl.
  - reflexivity.
  - apply binary_round_sign.
  - lia.
Qed.

Lemma SFldexp_sign (s : bool) (f : spec_float) (e : Z) :
  sf_sign_is s f -> sf_sign_is s (SFldexp prec emax f e).
Proof.
  destruct f as [s' | s' | | s' m e']; simpl; auto.
  intros ->. apply binary_round_sign.
Qed.

Lemma SFopp_sign (s : bool) (f : spec_float) :
  sf_sign_is s f -> sf_sign_is (negb s) (SFopp f).
Proof.
  destruct f; simpl; auto; intros ->; reflexivity.
Qed.

Lemma SF2Prim_sign (s : bool) (f : spec_float) :
  sf_sign_is s f -> sf_sign_is s (Prim2SF (SF2Prim f)).
Proof.
  destruct f as [s' | s' | | s' m e]; simpl.
  - intros ->. destruct s; reflexivity.
  - intros ->. destruct s; reflexivity.
  - intros _. exact I.
  - intros ->.
    assert (H : sf_sign_is false
                  (Prim2SF (Z.ldexp (of_uint63 (Uint63Axioms.of_Z (Z.pos m))) e))).
    { unfold Z.ldexp. rewrite FloatAxioms.ldshiftexp_spec. apply SFldexp_sign.
      rewrite FloatAxioms.of_uint63_spec. apply binary_normalize_sign.
      apply Uint63.to_Z_bounded. }
    destruct s.
    + rewrite FloatAxioms.opp_spec. exact (SFopp_sign false _ H).
    + exact H.
Qed.

Lemma SFdiv_sign (s : bool) (x : spec_float) (m : positive) (e : Z) :
  sf_sign_is s x -> sf_sign_is s (SFdiv prec emax x (S754_finite false m e)).
Proof.
  destruct x as [s' | s' | | s' mx ex]; simpl; auto.
  - intros ->. destruct s; reflexivity.
  - intros ->. destruct s; reflexivity.
  - intros ->. destruct (SFdiv_core_binary _ _ _ _ _ _) as [[mz ez] lz].
    replace (xorb s false) with s by (destruct s; reflexivity).
    apply binary_round_aux_sign.
Qed.

Lemma negative_not_above_zero (x : float) :
  sf_sign_is true (Prim2SF x) -> (0 <? x)%float = false.
Proof.
  rewrite FloatAxioms.ltb_spec. unfold SFltb.
  change (Prim2SF 0) with (S754_zero false).
  destruct (Prim2SF x) as [s | s | | s m e]; simpl; intros H; try rewrite H; reflexivity.
Qed.

(** ** The sort *)

Section SortProperties.
Context {A : Type} (key : A -> float).

Let key_le (a b : A) : Prop := (key a <=? key b)%float = true.
Let key_is (k : float) (a : A) : bool := (key a =? k)%float.

Lemma insert_perm (x : A) (l : list A) : Permutation (insert key x l) (x :: l).
Proof.
  induction l as [| y l IH]; simpl.
  - apply Permutation_refl.
  - destruct (key y <? key x)%float.
    + apply Permutation_trans with (y :: x :: l).
      * apply perm_skip. exact IH.
      * apply perm_swap.
    + apply Permutation_refl.
Qed.

Lemma sort_perm (l : list A) : Permutation (sort key l) l.
Proof.
  induction l as [| x l IH]; simpl.
  - apply perm_nil.
  - apply Permutation_trans with (x :: sort key l).
    + apply insert_perm.
    + apply perm_skip. exact IH.
Qed.

Lemma insert_Forall (P : A -> Prop) (x : A) (l : list A) :
  P x -> Forall P l -> Forall P (insert key x l).
Proof.
  intros Hx Hl.
  apply (Permutation_Forall (Permutation_sym (insert_perm x l))).
  constructor; assumption.
Qed.

Lemma sort_Forall (P : A -> Prop) (l : list A) :
  Forall P l -> Forall P (sort key l).
Proof.
  intros Hl. exact (Permutation_Forall (Permutation_sym (sort_perm l)) Hl).
Qed.

Lemma insert_sorted (x : A) (l : list A) :
  comparable (key x) -> Forall (fun a => comparable (key a)) l ->
  StronglySorted key_le l -> StronglySorted key_le (insert key x l).
Proof.
  intros Hx Hl Hs. induction Hs as [| y l Hs IH Hy]; simpl.
  - constructor; constructor.
  - inversion Hl as [| ? ? Cy Cl]; subst.
    destruct (key y <? key x)%float eqn:E.
    + constructor.
      * apply IH. exact Cl.
      * apply insert_Forall; [exact (ltb_true_leb _ _ E) | exact Hy].
    + assert (Hxy : key_le x y) by exact (ltb_false_leb _ _ Cy Hx E).
      constructor.
      * constructor; assumption.
      * constructor; [exact Hxy |].
        apply Forall_impl with (P := key_le y); [| exact Hy].
        intros z Hyz. exact (leb_trans _ _ _ Hxy Hyz).
Qed.

Lemma sort_sorted (l : list A) :
  Forall (fun a => comparable (key a)) l -> StronglySorted key_le (sort key l).
Proof.
  induction l as [| x l IH]; simpl; intros Hl.
  - constructor.
  - inversion Hl as [| ? ? Cx Cl]; subst.
    apply insert_sorted.
    + exact Cx.
    + apply sort_Forall. exact Cl.
    + apply IH. exact Cl.
Qed.

Lemma insert_filter (k : float) (x : A) (l : list A) :
  filter (key_is k) (insert key x l) = filter (key_is k) (x :: l).
Proof.
  induction l as [| y l IH].
  - reflexivity.
  - cbn [insert]. destruct (key y <? key x)%float eqn:E.
    + cbn [filter]. rewrite IH. cbn [filter].
      destruct (key_is k y) eqn:Ey, (key_is k x) eqn:Ex; try reflexivity.
      unfold key_is in Ey, Ex.
      rewrite (eqb_eqb_ltb _ _ _ Ey Ex) in E. discriminate.
    + reflexivity.
Qed.

Lemma sort_filter (k : float) (l : list A) :
  filter (key_is k) (sort key l) = filter (key_is k) l.
Proof.
  induction l as [| x l IH].
  - reflexivity.
  - cbn [sort]. rewrite insert_filter. cbn [filter]. rewrite IH. reflexivity.
Qed.
Lemma filter_key_nonempty (x : A) (l : list A) :
  comparable (key x) -> In x l -> filter (key_is (key x)) l <> [].
Proof.
  intros Hx Hin Hnil.
  assert (H : In x (filter (key_is (key x)) l)).
  { apply filter_In. split; [exact Hin | exact (eqb_refl _ Hx)]. }
  rewrite Hnil in H. exact H.
Qed.

Lemma sorted_head_least (x y : A) (l1 l2 : list A) :
  Forall (fun a => comparable (key a)) (y :: l2) ->
  StronglySorted key_le (x :: l1) ->
  (forall k, filter (key_is k) (x :: l1) = filter (key_is k) (y :: l2)) ->
  key_le x y.
Proof.
  intros Hc Hs Hf.
  assert (Hy : comparable (key y)) by (inversion Hc; assumption).
  assert (Hin : exists w, In w (x :: l1) /\ key_is (key y) w = true).
  { destruct (filter (key_is (key y)) (x :: l1)) as [| w ws] eqn:E.
    - exfalso. apply (filter_key_nonempty y (y :: l2) Hy (or_introl eq_refl)).
      rewrite <- Hf. exact E.
    - exists w. apply filter_In. rewrite E. left. reflexivity. }
  destruct Hin as (w & Hw & Hk). unfold key_is in Hk.
  apply StronglySorted_inv in Hs. destruct Hs as [_ Hall].
  destruct Hw as [<- | Hw].
  - exact (eqb_true_leb _ _ Hk).
  - apply (leb_trans _ (key w) _); [| exact (eqb_true_leb _ _ Hk)].
    exact (proj1 (Forall_forall _ _) Hall w Hw).
Qed.

(** Two ascending lists that hold, for every key, the same elements in
    the same order are one list: the result of a stable ascending sort
    does not depend on the algorithm. *)
Lemma sorted_stable_unique (l1 l2 : list A) :
  Forall (fun a => comparable (key a)) l1 ->
  Forall (fun a => comparable (key a)) l2 ->
  StronglySorted key_le l1 -> StronglySorted key_le l2 ->
  (forall k, filter (key_is k) l1 = filter (key_is k) l2) ->
  l1 = l2.
Proof.
  revert l2. induction l1 as [| x l1 IH]; intros l2 H1 H2 S1 S2 Hf.
  - destruct l2 as [| y l2]; [reflexivity |]. exfalso.
    assert (Hy : comparable (key y)) by (inversion H2; assumption).
    apply (filter_key_nonempty y (y :: l2) Hy (or_introl eq_refl)).
    rewrite <- Hf. reflexivity.
  - assert (Hx : comparable (key x)) by (inversion H1; assumption).
    destruct l2 as [| y l2].
    + exfalso. apply (filter_key_nonempty x (x :: l1) Hx (or_introl eq_refl)).
      rewrite Hf. reflexivity.
    + assert (Hxy : key_le x y) by exact (sorted_head_least x y l1 l2 H2 S1 Hf).
      assert (Hyx : key_le y x).
      { apply (sorted_head_least y x l2 l1 H1 S2). intros k. symmetry. apply Hf. }
      assert (E : x = y).
      { pose proof (Hf (key x)) as Hk. cbn [filter] in Hk. unfold key_is in Hk.
        rewrite (eqb_refl _ Hx), (leb_antisym_eqb _ _ Hyx Hxy) in Hk.
        injection Hk as Hk _. exact Hk. }
      subst y. f_equal.
      apply IH.
      * inversion H1; assumption.
      * inversion H2; assumption.
      * inversion S1; assumption.
      * inversion S2; assumption.
      * intros k. pose proof (Hf k) as Hk. cbn [filter] in Hk.
        destruct (key_is k x); [injection Hk as Hk |]; exact Hk.
Qed.

Lemma sort_unique (l l' : list A) :
  Forall (fun a => comparable (key a)) l ->
  Permutation l' l ->
  StronglySorted key_le l' ->
  (forall k, filter (key_is k) l' = filter (key_is k) l) ->
  l' = sort key l.
Proof.
  intros Hl Hp Hs Hf. apply sorted_stable_unique.
  - exact (Permutation_Forall (Permutation_sym Hp) Hl).
  - apply sort_Forall. exact Hl.
  - exact Hs.
  - apply sort_sorted. exact Hl.
  - intros k. rewrite sort_filter. apply Hf.
Qed.
End SortProperties.

Lemma closes_later_comparable (v : View.t) :
  closes_later v -> comparable (View.hours_until_close v).
Proof.
  intros H. exact (proj2 (ltb_true_comparable _ _ H)).
Qed.

(** Sorting views that close later than now by [hours_until_close]
    gives a permutation, ordered by non-decreasing hours, that keeps
    the views closing at the same [k] in the order they came in; no
    other list has these three properties. *)
Lemma sort_closing_later (views : list View.t) :
  Forall closes_later views ->
  Permutation (sort View.hours_until_close views) views
  /\ StronglySorted closes_no_later (sort View.hours_until_close views)
  /\ (forall k : float,
        closing_at k (sort View.hours_until_close views) = closing_at k views)
  /\ (forall sorted : list View.t,
        Permutation sorted views ->
        StronglySorted closes_no_later sorted ->
        (forall k : float, closing_at k sorted = closing_at k views) ->
        sorted = sort View.hours_until_close views).
Proof.
  intros H.
  assert (Hc : Forall (fun v => comparable (View.hours_until_close v)) views).
  { apply Forall_impl with (P := closes_later); [| exact H].
    exact closes_later_comparable. }
  split; [| split; [| split]].
  - apply sort_perm.
  - apply (sort_sorted View.hours_until_close). exact Hc.
  - intros k. apply (sort_filter View.hours_until_close).
  - intros sorted Hp Hs Hf.
    exact (sort_unique View.hours_until_close views sorted Hc Hp Hs Hf).
Qed.

(** ** The paginated fetch *)

Section FetchProperties.
Variable Client : Type.
Variable get_markets : Client -> Request.t -> result (Response.t * Client).

Lemma exhausts_length (lo hi : Z) (client : Client) (cursor : option string)
    (pages : list Response.t) (client' : Client) :
  exhausts get_markets lo hi client cursor pages client' ->
  List.length pages = S (nonempty_cursors pages).
Proof.
  unfold nonempty_cursors.
  induction 1 as [c cur p c' Hg Hp | c cur p c' ps c'' Hg Hp Hrest IH]; simpl.
  - rewrite Hp. reflexivity.
  - rewrite Hp. simpl. rewrite IH. reflexivity.
Qed.

Lemma fetch_pages_exhausts (lo hi : Z) (client : Client) (cursor : option string)
    (pages : list Response.t) (client' : Client) :
  exhausts get_markets lo hi client cursor pages client' ->
  forall (fuel : nat) (acc : list Market.t),
    (List.length pages <= fuel)%nat ->
    fetch_pages Client get_markets fuel client lo hi cursor acc
    = Some (ret ((acc ++ all_markets pages)%list, client')).
Proof.
  unfold all_markets.
  induction 1 as [c cur p c' Hg Hp | c cur p c' ps c'' Hg Hp Hrest IH];
    intros fuel acc Hfuel; (destruct fuel as [| fuel]; [simpl in Hfuel; lia |]);
    simpl; rewrite Hg, Hp; simpl.
  - rewrite app_nil_r. reflexivity.
  - rewrite IH by (simpl in Hfuel; lia).
    rewrite <- app_assoc. reflexivity.
Qed.

Lemma fetch_pages_pending (lo hi : Z) (client : Client) (cursor : option string)
    (pages : list Response.t) (client' : Client) :
  exhausts get_markets lo hi client cursor pages client' ->
  forall (fuel : nat) (acc : list Market.t),
    (fuel < List.length pages)%nat ->
    fetch_pages Client get_markets fuel client lo hi cursor acc = None.
Proof.
  induction 1 as [c cur p c' Hg Hp | c cur p c' ps c'' Hg Hp Hrest IH];
    intros fuel acc Hfuel; (destruct fuel as [| fuel]; [reflexivity |]).
  - simpl in Hfuel. lia.
  - simpl. rewrite Hg, Hp. simpl. apply IH. simpl in Hfuel. lia.
Qed.

Lemma logged_exhausts (lo hi : Z) (client : Client) (cursor : option string)
    (pages : list Response.t) (client' : Client) :
  exhausts get_markets lo hi client cursor pages client' ->
  forall log : list (Request.t * Response.t),
    exhausts (logged get_markets) lo hi (client, log) cursor pages
      (client', (log ++ transcript lo hi cursor pages)%list).
Proof.
  induction 1 as [c cur p c' Hg Hp | c cur p c' ps c'' Hg Hp Hrest IH]; intros log.
  - apply exhausts_last; [| exact Hp].
    simpl. rewrite Hg. reflexivity.
  - apply exhausts_next with (client' := (c', (log ++ [(listing_request lo hi cur, p)])%list)).
    + simpl. rewrite Hg. reflexivity.
    + exact Hp.
    + specialize (IH (log ++ [(listing_request lo hi cur, p)])%list).
      rewrite <- app_assoc in IH. exact IH.
Qed.

(** A run that returns has seen a sequence of pages that ends in an
    empty cursor. *)
Lemma fetch_pages_returns (fuel : nat) :
  forall (client : Client) (lo hi : Z) (cursor : option string)
         (acc fetched : list Market.t) (client' : Client),
    fetch_pages Client get_markets fuel client lo hi cursor acc
    = Some (inr (fetched, client')) ->
    exists pages : list Response.t,
      exhausts get_markets lo hi client cursor pages client'
      /\ fetched = (acc ++ all_markets pages)%list
      /\ (List.length pages <= fuel)%nat.
Proof.
  induction fuel as [| fuel IH]; intros client lo hi cursor acc fetched client' H.
  - discriminate.
  - simpl in H.
    destruct (get_markets client (listing_request lo hi cursor))
      as [e | [page client1]] eqn:Hg; [discriminate |].
    destruct (truthy_str (Response.cursor page)) eqn:Hp; simpl in H.
    + destruct (IH _ _ _ _ _ _ _ H) as (pages & Hex & -> & Hlen).
      exists (page :: pages). split; [| split].
      * exact (exhausts_next _ _ _ _ _ _ _ _ _ _ Hg Hp Hex).
      * unfold all_markets. simpl. rewrite <- app_assoc. reflexivity.
      * simpl. lia.
    + injection H as <- <-. exists [page]. split; [| split].
      * exact (exhausts_last _ _ _ _ _ _ _ _ Hg Hp).
      * unfold all_markets. simpl. rewrite app_nil_r. reflexivity.
      * simpl. lia.
Qed.

(** A capability that never hands back an empty cursor keeps the loop
    going whatever the fuel. *)
Lemma fetch_pages_endless :
  (forall client request, exists page client',
      get_markets client request = inr (page, client')
      /\ truthy_str (Response.cursor page) = true) ->
  forall (fuel : nat) (client : Client) (lo hi : Z) (cursor : option string)
         (acc : list Market.t),
    fetch_pages Client get_markets fuel client lo hi cursor acc = None.
Proof.
  intros Hgm. induction fuel as [| fuel IH]; intros client lo hi cursor acc.
  - reflexivity.
  - simpl.
    destruct (Hgm client (listing_request lo hi cursor)) as (p & c' & Hg & Hp).
    rewrite Hg, Hp. simpl. apply IH.
Qed.
End FetchProperties.

Lemma transcript_pages (lo hi : Z) (pages : list Response.t) (cursor : option string) :
  map snd (transcript lo hi cursor pages) = pages.
Proof.
  revert cursor. induction pages as [| p ps IH]; intros cursor; simpl.
  - reflexivity.
  - rewrite IH. reflexivity.
Qed.

Lemma countdown_length (n : nat) : List.length (countdown n) = S n.
Proof.
  induction n as [| n IH]; simpl; [reflexivity | rewrite IH; reflexivity].
Qed.

Lemma countdown_exhausts (lo hi : Z) (n : nat) (cursor : option string) :
  exhausts scripted lo hi (countdown n) cursor (countdown n) [].
Proof.
  revert cursor. induction n as [| n IH]; intros cursor; simpl.
  - apply exhausts_last; reflexivity.
  - eapply exhausts_next; [reflexivity | reflexivity | apply IH].
Qed.

(** C2, as the code has it: the fetch loop returns exactly when the
    listing capability answers its requests with a sequence of pages
    that ends in an empty cursor.  It then returns after one request
    per page, that is one more than the number of non-empty cursors
    handed back: any fuel of that many requests suffices and no smaller
    one does; the requests repeat the window and carry the cursor of
    the page before; the accumulated list is the concatenation of the
    markets of the pages in request order.  The page count has no bound
    of its own: every count is reached by some capability, and a
    capability that never hands back an empty cursor keeps the loop
    going for ever. *)
Theorem fetch_pages_until_cursor_exhausted :
  (forall (Client : Type)
          (get_markets : Client -> Request.t -> result (Response.t * Client))
          (lo hi : Z) (client : Client) (pages : list Response.t) (client' : Client),
      exhausts get_markets lo hi client None pages client' ->
      let requests := List.length pages in
      let log := transcript lo hi None pages in
      requests = S (nonempty_cursors pages)
      /\ List.length log = requests
      /\ map snd log = pages
      /\ (forall fuel : nat, (requests <= fuel)%nat ->
            fetch_pages _ get_markets fuel client lo hi None []
            = Some (ret (all_markets pages, client')))
      /\ (forall fuel : nat, (requests <= fuel)%nat ->
            fetch_pages _ (logged get_markets) fuel (client, []) lo hi None []
            = Some (ret (all_markets pages, (client', log))))
      /\ (forall fuel : nat, (fuel < requests)%nat ->
            fetch_pages _ (logged get_markets) fuel (client, []) lo hi None [] = None))
  /\ (forall (Client : Type)
             (get_markets : Client -> Request.t -> result (Response.t * Client))
             (fuel : nat) (lo hi : Z) (client client' : Client)
             (fetched : list Market.t),
        fetch_pages _ get_markets fuel client lo hi None [] = Some (ret (fetched, client')) ->
        exists pages : list Response.t,
          exhausts get_markets lo hi client None pages client'
          /\ fetched = all_markets pages
          /\ List.length pages = S (nonempty_cursors pages)
          /\ (List.length pages <= fuel)%nat)
  /\ (forall (lo hi : Z) (n : nat),
        exists pages : list Response.t,
          List.length pages = S n
          /\ exhausts scripted lo hi pages None pages [])
  /\ (forall (Client : Type)
             (get_markets : Client -> Request.t -> result (Response.t * Client)),
        (forall client request, exists page client',
            get_markets client request = inr (page, client')
            /\ truthy_str (Response.cursor page) = true) ->
        forall (fuel : nat) (client : Client) (lo hi : Z),
          fetch_pages _ get_markets fuel client lo hi None [] = None).
Proof.
  split; [| split; [| split]].
  - intros Client get_markets lo hi client pages client' H requests log.
    pose proof (logged_exhausts _ _ _ _ _ _ _ _ H []) as Hlog. simpl in Hlog.
    assert (Hlen : List.length log = requests).
    { unfold log, requests. rewrite <- (transcript_pages lo hi pages None) at 2.
      symmetry. apply length_map. }
    split; [exact (exhausts_length _ _ _ _ _ _ _ _ H) |].
    split; [exact Hlen |].
    split; [apply transcript_pages |].
    split; [| split].
    + intros fuel Hfuel.
      exact (fetch_pages_exhausts _ _ _ _ _ _ _ _ H fuel [] Hfuel).
    + intros fuel Hfuel.
      exact (fetch_pages_exhausts _ _ _ _ _ _ _ _ Hlog fuel [] Hfuel).
    + intros fuel Hfuel.
      exact (fetch_pages_pending _ _ _ _ _ _ _ _ Hlog fuel [] Hfuel).
  - intros Client get_markets fuel lo hi client client' fetched H.
    destruct (fetch_pages_returns _ _ _ _ _ _ _ _ _ _ H) as (pages & Hex & Hf & Hlen).
    exists pages. split; [exact Hex |]. split; [exact Hf |].
    split; [exact (exhausts_length _ _ _ _ _ _ _ _ Hex) | exact Hlen].
  - intros lo hi n. exists (countdown n). split.
    + apply countdown_length.
    + apply countdown_exhausts.
  - intros Client get_markets Hgm fuel client lo hi.
    apply fetch_pages_endless. exact Hgm.
Qed.

(** Termination fails for a sequence of pages without an empty cursor:
    against a capability that hands back the cursor "again" with every
    page, the loop has not returned after any number of requests. *)
Lemma repeating_cursor_never_returns :
  repeating tt (listing_request 1700000000 1700086400 None)
  = ret ({| Response.markets := []; Response.cursor := Some "again" |}, tt)
  /\ (forall fuel : nat,
        fetch_pages unit repeating fuel tt 1700000000 1700086400 None [] = None).
Proof.
  split; [reflexivity |].
  intros fuel. apply fetch_pages_endless.
  intros client request. exists {| Response.markets := []; Response.cursor := Some "again" |}, tt.
  split; reflexivity.
Qed.

(** ** Enrichment *)

(** The hours left until a close time that is not after [now] are not
    above zero. *)
Lemma hours_left_sign (now close_time : datetime) (hours : float) :
  micros close_time <= micros now ->
  hours_left now close_time = inr hours ->
  (0 <? hours)%float = false.
Proof.
  intros Hle. unfold hours_left, datetime_sub, total_seconds, int_truediv.
  destruct (Bool.eqb (tz_aware close_time) (tz_aware now)); [| discriminate].
  cbn [bind ret]. change (1000000 =? 0) with false. cbv iota.
  set (delta := micros close_time - micros now).
  assert (Hd : delta <= 0) by (unfold delta; lia).
  destruct (SF_is_infinity _) eqn:Hinf; [discriminate |].
  cbn [bind ret]. intros H. injection H as <-.
  destruct delta as [| p | p]; [| lia |].
  - vm_compute. reflexivity.
  - apply negative_not_above_zero.
    rewrite FloatAxioms.div_spec.
    change (Prim2SF 3600) with (S754_finite false 7916483719987200 (-41)).
    apply SFdiv_sign, SF2Prim_sign.
    apply (SFdiv_sign true (S754_finite true p 0) 1000000 0). reflexivity.
Qed.

Section EnrichProperties.
Variable fromisoformat : string -> result datetime.
Variable now : datetime.

Lemma enrich_one_some (market : Market.t) (view : View.t) :
  enrich_one fromisoformat now market = inr (Some view) ->
  exists close_time hours,
    normalize_close_time fromisoformat market = inr close_time
    /\ hours_left now close_time = inr hours
    /\ (0 <? hours)%float = true
    /\ view = {| View.market := market;
                 View.hours_until_close := hours;
                 View.close_time := close_time |}.
Proof.
  unfold enrich_one. intros H.
  bind_inv H. rename a into close_time, Ha into Hc.
  bind_inv H. rename a into hours, Ha into Hh.
  exists close_time, hours.
  destruct (0 <? hours)%float; [| discriminate].
  injection H as H. auto.
Qed.

Lemma enrich_one_none (market : Market.t) (close_time : datetime) (hours : float) :
  normalize_close_time fromisoformat market = inr close_time ->
  hours_left now close_time = inr hours ->
  (0 <? hours)%float = false ->
  enrich_one fromisoformat now market = inr None.
Proof.
  unfold enrich_one. intros Hc Hh Hp. rewrite Hc. simpl. rewrite Hh. simpl.
  rewrite Hp. reflexivity.
Qed.

Lemma enrich_one_closes_later (market : Market.t) (view : View.t) :
  enrich_one fromisoformat now market = inr (Some view) ->
  closes_later view /\ View.market view = market.
Proof.
  intros H. destruct (enrich_one_some _ _ H) as (c & h & _ & _ & Hp & ->).
  split; [exact Hp | reflexivity].
Qed.

Lemma enrich_cons (market : Market.t) (rest : list Market.t) (views : list View.t) :
  enrich fromisoformat now (market :: rest) = inr views ->
  exists v views',
    enrich_one fromisoformat now market = inr v
    /\ enrich fromisoformat now rest = inr views'
    /\ views = match v with
               | Some view => view :: views'
               | None => views'
               end.
Proof.
  simpl. intros H.
  bind_inv H. rename a into v, Ha into Hv.
  bind_inv H. rename a into views', Ha into Hrest.
  injection H as H. exists v, views'. auto.
Qed.

Lemma enrich_In (markets : list Market.t) (views : list View.t) :
  enrich fromisoformat now markets = inr views ->
  forall view : View.t,
    In view views <->
    exists market, In market markets
                   /\ enrich_one fromisoformat now market = inr (Some view).
Proof.
  revert views. induction markets as [| m ms IH]; intros views H view.
  - injection H as <-. split; [intros [] | intros (m & [] & _)].
  - destruct (enrich_cons _ _ _ H) as (v & views' & Hv & Hrest & ->).
    specialize (IH views' Hrest view).
    split.
    + intros Hin.
      assert (Hcases : v = Some view \/ In view views').
      { destruct v as [w |]; [destruct Hin as [-> | Hin]; auto | auto]. }
      destruct Hcases as [-> | Hin'].
      * exists m. split; [left; reflexivity | exact Hv].
      * destruct (proj1 IH Hin') as (m' & Hm' & He).
        exists m'. split; [right; exact Hm' | exact He].
    + intros (m' & [<- | Hm'] & He).
      * rewrite Hv in He. injection He as ->. left. reflexivity.
      * assert (Hin' : In view views') by (apply IH; exists m'; auto).
        destruct v; [right |]; exact Hin'.
Qed.

Lemma enrich_markets (markets : list Market.t) (views : list View.t) :
  enrich fromisoformat now markets = inr views ->
  map View.market views = filter (keeps fromisoformat now) markets.
Proof.
  revert views. induction markets as [| m ms IH]; intros views H.
  - injection H as <-. reflexivity.
  - destruct (enrich_cons _ _ _ H) as (v & views' & Hv & Hrest & ->).
    simpl. unfold keeps at 1. rewrite Hv.
    destruct v as [w |]; simpl; rewrite (IH views' Hrest); [| reflexivity].
    rewrite (proj2 (enrich_one_closes_later _ _ Hv)). reflexivity.
Qed.
End EnrichProperties.

(** C3: whatever the raw markets and the fixed [now], every view that
    the enrichment stage returns has [hours_until_close > 0]; the views
    are exactly the results of the markets that pass that test, in the
    order of the markets; and a market whose computed remaining time
    is zero or negative is the market of no view, which is the case of
    every market whose close time is not after [now]. *)
Theorem enriched_views_close_later
    (fromisoformat : string -> result datetime) (now : datetime)
    (markets : list Market.t) (views : list View.t) :
  enrich fromisoformat now markets = inr views ->
  Forall closes_later views
  /\ (forall view : View.t,
        In view views <->
        exists market, In market markets
                       /\ enrich_one fromisoformat now market = inr (Some view))
  /\ map View.market views = filter (keeps fromisoformat now) markets
  /\ (forall (market : Market.t) (close_time : datetime) (hours : float),
        In market markets ->
        normalize_close_time fromisoformat market = inr close_time ->
        hours_left now close_time = inr hours ->
        (hours <=? 0)%float = true ->
        enrich_one fromisoformat now market = inr None
        /\ ~ In market (map View.market views))
  /\ (forall (market : Market.t) (close_time : datetime),
        In market markets ->
        normalize_close_time fromisoformat market = inr close_time ->
        micros close_time <= micros now ->
        ~ In market (map View.market views)).
Proof.
  intros H.
  pose proof (enrich_In fromisoformat now markets views H) as Hin.
  assert (Hdropped : forall (market : Market.t) (close_time : datetime) (hours : float),
             normalize_close_time fromisoformat market = inr close_time ->
             hours_left now close_time = inr hours ->
             (0 <? hours)%float = false ->
             ~ In market (map View.market views)).
  { intros market close_time hours Hc Hh Hnot Hmem.
    apply in_map_iff in Hmem. destruct Hmem as (view & Hvm & Hv).
    destruct (proj1 (Hin view) Hv) as (m' & _ & He).
    pose proof (proj2 (enrich_one_closes_later _ _ _ _ He)) as Hm'.
    rewrite Hvm in Hm'. subst m'.
    rewrite (enrich_one_none _ _ _ _ _ Hc Hh Hnot) in He. discriminate. }
  split; [| split; [exact Hin | split; [exact (enrich_markets _ _ _ _ H) | split]]].
  - apply Forall_forall. intros view Hv.
    destruct (proj1 (Hin view) Hv) as (m & _ & He).
    exact (proj1 (enrich_one_closes_later _ _ _ _ He)).
  - intros market close_time hours Hm Hc Hh Hle.
    pose proof (leb_true_ltb_false _ _ Hle) as Hnot.
    split; [exact (enrich_one_none _ _ _ _ _ Hc Hh Hnot) |].
    exact (Hdropped market close_time hours Hc Hh Hnot).
  - intros market close_time Hm Hc Hle Hmem.
    pose proof Hmem as Hmem'.
    apply in_map_iff in Hmem'. destruct Hmem' as (view & Hvm & Hv).
    destruct (proj1 (Hin view) Hv) as (m' & _ & He).
    pose proof (proj2 (enrich_one_closes_later _ _ _ _ He)) as Hm'.
    rewrite Hvm in Hm'. subst m'.
    destruct (enrich_one_some _ _ _ _ He) as (c & h & Hc' & Hh & Hp & _).
    rewrite Hc in Hc'. injection Hc' as <-.
    rewrite (hours_left_sign _ _ _ Hle Hh) in Hp. discriminate.
Qed.

(** ** The sort of the enriched views *)

Lemma enrich_closes_later (fromisoformat : string -> result datetime) (now : datetime)
    (markets : list Market.t) (views : list View.t) :
  enrich fromisoformat now markets = inr views -> Forall closes_later views.
Proof.
  intros H. apply Forall_forall. intros view Hv.
  destruct (proj1 (enrich_In fromisoformat now markets views H view) Hv) as (m & _ & He).
  exact (proj1 (enrich_one_closes_later _ _ _ _ He)).
Qed.

Lemma closing_soon_one_page (fromisoformat : string -> result datetime)
    (now_micros hours : Z) (markets : list Market.t) (window : Z * Z) :
  time_window (utc now_micros) hours = inr window ->
  get_markets_closing_soon (list Response.t) scripted fromisoformat 1
    (one_page markets) now_micros hours
  = Some (views <- enrich fromisoformat (utc now_micros) markets ;;
          ret (sort View.hours_until_close views, [])).
Proof.
  intros H. unfold get_markets_closing_soon. rewrite H.
  destruct window as [lo hi]. reflexivity.
Qed.

(** C4: the list that [get_markets_closing_soon] returns is the sorted
    list of the enriched views.  With [kept] the views that the
    enrichment loop built from the markets fetched, in loop order, the
    list returned is a permutation of [kept], ordered by non-decreasing
    [hours_until_close], and stable: for every number of hours [k], the
    views closing at [k] come out in the order they had in [kept].  No
    other list has these three properties.  Every list of enriched
    views is sorted so: whatever the markets and the clock reading,
    there is a run, the listing fitting on one page, that enriches
    these markets and returns their views in that order. *)
Theorem sort_views_stable_ascending :
  (forall (Client : Type)
          (get_markets : Client -> Request.t -> result (Response.t * Client))
          (fromisoformat : string -> result datetime)
          (fuel : nat) (client client' : Client) (now_micros hours : Z)
          (views : list View.t),
      get_markets_closing_soon Client get_markets fromisoformat fuel client
        now_micros hours
      = Some (inr (views, client')) ->
      exists (lo hi : Z) (pages : list Response.t) (kept : list View.t),
        time_window (utc now_micros) hours = inr (lo, hi)
        /\ exhausts get_markets lo hi client None pages client'
        /\ enrich fromisoformat (utc now_micros) (all_markets pages) = inr kept
        /\ Forall closes_later kept
        /\ Permutation views kept
        /\ StronglySorted closes_no_later views
        /\ (forall k : float, closing_at k views = closing_at k kept)
        /\ (forall sorted : list View.t,
              Permutation sorted kept ->
              StronglySorted closes_no_later sorted ->
              (forall k : float, closing_at k sorted = closing_at k kept) ->
              sorted = views))
  /\ (forall (fromisoformat : string -> result datetime) (now_micros hours : Z)
             (markets : list Market.t) (kept : list View.t),
        (exists window : Z * Z, time_window (utc now_micros) hours = inr window) ->
        enrich fromisoformat (utc now_micros) markets = inr kept ->
        exists views : list View.t,
          get_markets_closing_soon (list Response.t) scripted fromisoformat 1
            (one_page markets) now_micros hours
          = Some (inr (views, []))
          /\ Permutation views kept
          /\ StronglySorted closes_no_later views
          /\ (forall k : float, closing_at k views = closing_at k kept)).
Proof.
  split.
  - intros Client get_markets fromisoformat fuel client client' now_micros hours views H.
    unfold get_markets_closing_soon in H.
    destruct (time_window (utc now_micros) hours) as [e | [lo hi]] eqn:Hw;
      [discriminate |].
    destruct (fetch_pages Client get_markets fuel client lo hi None [])
      as [[e | [fetched client1]] |] eqn:Hf; try discriminate.
    injection H as H.
    bind_inv H. rename a into kept, Ha into Hk. injection H as <- <-.
    destruct (fetch_pages_returns _ _ _ _ _ _ _ _ _ _ Hf) as (pages & Hex & Hm & _).
    simpl in Hm. subst fetched.
    pose proof (enrich_closes_later _ _ _ _ Hk) as Hpos.
    destruct (sort_closing_later kept Hpos) as (Hperm & Hsorted & Hstable & Hunique).
    exists lo, hi, pages, kept.
    repeat (split; [first [reflexivity | assumption] |]). exact Hunique.
  - intros fromisoformat now_micros hours markets kept [window Hw] Hk.
    rewrite (closing_soon_one_page _ _ _ _ _ Hw), Hk.
    pose proof (enrich_closes_later _ _ _ _ Hk) as Hpos.
    destruct (sort_closing_later kept Hpos) as (Hperm & Hsorted & Hstable & _).
    exists (sort View.hours_until_close kept).
    split; [reflexivity |]. split; [exact Hperm |]. split; assumption.
Qed.

Lemma sort_views_stable_ascending_witness :
  let views := [view_of (unquoted_market "b" (sample_now + 1800000000)) 0.5
                  (sample_now + 1800000000);
                view_of (unquoted_market "d" (sample_now + 1800000000)) 0.5
                  (sample_now + 1800000000);
                view_of (unquoted_market "a" (sample_now + 7200000000)) 2
                  (sample_now + 7200000000);
                view_of (unquoted_market "c" (sample_now + 7200000000)) 2
                  (sample_now + 7200000000)] in
  exists (lo hi : Z) (pages : list Response.t) (kept : list View.t),
    time_window (utc sample_now) HOURS_THRESHOLD = inr (lo, hi)
    /\ exhausts scripted lo hi (one_page tied_markets) None pages []
    /\ enrich no_fromisoformat (utc sample_now) (all_markets pages) = inr kept
    /\ Forall closes_later kept
    /\ Permutation views kept
    /\ StronglySorted closes_no_later views
    /\ (forall k : float, closing_at k views = closing_at k kept)
    /\ (forall sorted : list View.t,
          Permutation sorted kept ->
          StronglySorted closes_no_later sorted ->
          (forall k : float, closing_at k sorted = closing_at k kept) ->
          sorted = views).
Proof.
  apply (proj1 sort_views_stable_ascending (list Response.t) scripted no_fromisoformat
           1%nat (one_page tied_markets) [] sample_now HOURS_THRESHOLD).
  vm_compute. reflexivity.
Defined.

(** ** The end-to-end pipeline on three markets *)

Lemma hours_left_offset (now_micros offset : Z) :
  hours_left (utc now_micros) (utc (now_micros + offset))
  = (seconds <- total_seconds offset ;; ret (seconds / 3600)%float).
Proof.
  unfold hours_left, datetime_sub, utc; cbn [tz_aware micros Bool.eqb bind ret].
  replace (now_micros + offset - now_micros) with offset by lia.
  reflexivity.
Qed.

Lemma enrich_one_offset (fromisoformat : string -> result datetime)
    (now_micros offset : Z) (market : Market.t) (hours : float) :
  Market.close_time market = Market.Instant (utc (now_micros + offset)) ->
  (seconds <- total_seconds offset ;; ret (seconds / 3600)%float) = inr hours ->
  enrich_one fromisoformat (utc now_micros) market
  = inr (if (0 <? hours)%float
         then Some (view_of market hours (now_micros + offset))
         else None).
Proof.
  intros Hc Hh. unfold enrich_one, normalize_close_time. rewrite Hc.
  cbn [bind ret]. rewrite hours_left_offset, Hh. cbn [bind ret].
  destruct (0 <? hours)%float; reflexivity.
Qed.

Lemma Permutation_three {A : Type} (l : list A) (a b c : A) :
  Permutation l [a; b; c] ->
  l = [a; b; c] \/ l = [a; c; b] \/ l = [b; a; c]
  \/ l = [b; c; a] \/ l = [c; a; b] \/ l = [c; b; a].
Proof.
  intros H. pose proof (Permutation_length H) as Hlen.
  destruct (Permutation_vs_cons_inv H) as (l1 & l2 & ->).
  apply Permutation_sym, Permutation_cons_app_inv, Permutation_length_2_inv in H.
  destruct l1 as [| x [| y [| z l1]]]; simpl in H, Hlen |- *.
  - destruct H as [-> | ->]; auto.
  - destruct l2 as [| z [| w l2]]; simpl in Hlen; try discriminate.
    destruct H as [H | H]; injection H as -> ->; auto 10.
  - destruct l2 as [| w l2]; simpl in Hlen; try discriminate.
    destruct H as [H | H]; injection H as -> ->; auto 10.
  - rewrite length_app in Hlen. simpl in Hlen. lia.
Qed.

Section ThreeMarkets.
Variable Client : Type.
Variable get_markets : Client -> Request.t -> result (Response.t * Client).
Variable fromisoformat : string -> result datetime.
Variable now_micros : Z.
Variables soon beyond past : Market.t.

Hypothesis soon_closes :
  Market.close_time soon = Market.Instant (utc (now_micros + 1800000000)).
Hypothesis beyond_closes :
  Market.close_time beyond = Market.Instant (utc (now_micros + 90000000000)).
Hypothesis past_closed :
  Market.close_time past = Market.Instant (utc (now_micros + -3600000000)).

Let now : datetime := utc now_micros.
Let soon_view : View.t := view_of soon 0.5 (now_micros + 1800000000).
Let beyond_view : View.t := view_of beyond 25 (now_micros + 90000000000).

Lemma enrich_soon : enrich_one fromisoformat now soon = inr (Some soon_view).
Proof.
  exact (enrich_one_offset fromisoformat now_micros 1800000000 soon 0.5
           soon_closes eq_refl).
Qed.

Lemma enrich_beyond : enrich_one fromisoformat now beyond = inr (Some beyond_view).
Proof.
  exact (enrich_one_offset fromisoformat now_micros 90000000000 beyond 25
           beyond_closes eq_refl).
Qed.

Lemma enrich_past : enrich_one fromisoformat now past = inr None.
Proof.
  exact (enrich_one_offset fromisoformat now_micros (-3600000000) past (-1)
           past_closed eq_refl).
Qed.

Lemma enrich_sort_three {B : Type} (k : list View.t -> B) (fetched : list Market.t) :
  Permutation fetched [soon; beyond; past] ->
  (views <- enrich fromisoformat now fetched ;;
   ret (k (sort View.hours_until_close views)))
  = inr (k [soon_view; beyond_view]).
Proof.
  intros H.
  destruct (Permutation_three _ _ _ _ H) as [-> | [-> | [-> | [-> | [-> | ->]]]]];
    cbn [enrich]; rewrite enrich_soon, enrich_beyond, enrich_past; reflexivity.
Qed.
End ThreeMarkets.

(** C1, as the code has it: with a horizon of 24 hours, when the fetch
    hands over, in any order, three markets that close 0.5 hours after,
    25 hours after and 1 hour before the captured [now], the pipeline
    returns exactly two views: the one closing in 0.5 hours, then the
    one closing in 25 hours.  Enrichment drops the market that is
    already closed and nothing else; the horizon is applied by the
    listing capability only. *)
Theorem three_markets_end_to_end
    (Client : Type) (get_markets : Client -> Request.t -> result (Response.t * Client))
    (fromisoformat : string -> result datetime)
    (fuel : nat) (client client' : Client) (now_micros lo hi : Z)
    (fetched : list Market.t) (soon beyond past : Market.t) :
  Market.close_time soon = Market.Instant (utc (now_micros + 1800000000)) ->
  Market.close_time beyond = Market.Instant (utc (now_micros + 90000000000)) ->
  Market.close_time past = Market.Instant (utc (now_micros - 3600000000)) ->
  time_window (utc now_micros) HOURS_THRESHOLD = inr (lo, hi) ->
  fetch_pages Client get_markets fuel client lo hi None [] = Some (inr (fetched, client')) ->
  Permutation fetched [soon; beyond; past] ->
  get_markets_closing_soon Client get_markets fromisoformat fuel client
    now_micros HOURS_THRESHOLD
  = Some (ret ([view_of soon 0.5 (now_micros + 1800000000);
                view_of beyond 25 (now_micros + 90000000000)], client')).
Proof.
  intros Hsoon Hbeyond Hpast Hwindow Hfetch Hperm.
  unfold get_markets_closing_soon. rewrite Hwindow, Hfetch.
  rewrite (enrich_sort_three fromisoformat now_micros soon beyond past
             Hsoon Hbeyond Hpast (fun views => (views, client')) fetched Hperm).
  reflexivity.
Qed.

Lemma three_markets_end_to_end_witness :
  get_markets_closing_soon (list Response.t) scripted no_fromisoformat 1
    three_markets_page sample_now HOURS_THRESHOLD
  = Some (ret ([view_of closing_soon 0.5 (sample_now + 1800000000);
                view_of closing_beyond 25 (sample_now + 90000000000)], [])).
Proof.
  apply (three_markets_end_to_end (list Response.t) scripted no_fromisoformat 1
           three_markets_page [] sample_now 1700000000 1700086400
           [closing_soon; closing_beyond; closed_already]
           closing_soon closing_beyond closed_already).
  - reflexivity.
  - reflexivity.
  - reflexivity.
  - vm_compute. reflexivity.
  - reflexivity.
  - apply Permutation_refl.
Defined.

(** On the three markets served in one page the pipeline returns two
    views, not one: the market closing in 25 hours is kept. *)
Lemma three_markets_one_view_counterexample :
  get_markets_closing_soon (list Response.t) scripted no_fromisoformat 1
    three_markets_page sample_now HOURS_THRESHOLD
  = Some (ret ([view_of closing_soon 0.5 (sample_now + 1800000000);
                view_of closing_beyond 25 (sample_now + 90000000000)], []))
  /\ (forall (view : View.t) (client : list Response.t),
        get_markets_closing_soon (list Response.t) scripted no_fromisoformat 1
          three_markets_page sample_now HOURS_THRESHOLD
        <> Some (ret ([view], client))).
Proof.
  assert (H : get_markets_closing_soon (list Response.t) scripted no_fromisoformat 1
                three_markets_page sample_now HOURS_THRESHOLD
              = Some (ret ([view_of closing_soon 0.5 (sample_now + 1800000000);
                            view_of closing_beyond 25 (sample_now + 90000000000)], [])))
    by (vm_compute; reflexivity).
  split; [exact H |].
  intros view client. rewrite H. discriminate.
Qed.

(** ** Time formatting *)

Lemma truncate_inject_Z (z : Z) : truncate (inject_Z z) = z.
Proof.
  unfold truncate. destruct (Qle_bool (inject_Z 0) (inject_Z z)).
  - apply Qfloor_Z.
  - apply Qceiling_Z.
Qed.

Lemma truncate_fraction (s : bool) (m d : positive) :
  truncate (Qmake (if s then Zneg m else Zpos m) d)
  = Z.quot (if s then Zneg m else Zpos m) (Zpos d).
Proof.
  unfold truncate, Qle_bool, Qceiling, Qfloor. destruct s; simpl Qnum; simpl Qden.
  - replace (0 * Z.pos d <=? Z.neg m * 1) with false by (symmetry; apply Z.leb_gt; lia).
    cbn [Qopp Qnum Qden Z.opp].
    change (Z.neg m) with (- Z.pos m). rewrite Z.quot_opp_l by lia.
    rewrite Z.quot_div_nonneg by lia. reflexivity.
  - replace (0 * Z.pos d <=? Z.pos m * 1) with true by (symmetry; apply Z.leb_le; lia).
    rewrite Z.quot_div_nonneg by lia. reflexivity.
Qed.

(** [int] of a float is the truncation toward zero of its value. *)
Lemma int_of_float_truncates (x : float) (z : Z) :
  int_of_float x = inr z <-> exists q, float_value x = Some q /\ z = truncate q.
Proof.
  unfold int_of_float, float_value.
  destruct (Prim2SF x) as [s | s | | s m e].
  - split.
    + intros H. injection H as <-. exists (inject_Z 0). split; reflexivity.
    + intros (q & Hq & ->). injection Hq as <-. reflexivity.
  - split; [discriminate | intros (q & Hq & _); discriminate].
  - split; [discriminate | intros (q & Hq & _); discriminate].
  - assert (E : (if 0 <=? e then (if s then Z.neg m else Z.pos m) * 2 ^ e
                 else Z.quot (if s then Z.neg m else Z.pos m) (2 ^ (- e)))
                = truncate (if 0 <=? e then inject_Z ((if s then Z.neg m else Z.pos m) * 2 ^ e)
                            else Qmake (if s then Z.neg m else Z.pos m) (2 ^ Z.to_pos (- e)))).
    { destruct (0 <=? e) eqn:He.
      - symmetry. apply truncate_inject_Z.
      - apply Z.leb_gt in He. rewrite truncate_fraction.
        rewrite Pos2Z.inj_pow, Z2Pos.id by lia. reflexivity. }
    split.
    + intros H. injection H as <-. eexists. split; [reflexivity | exact E].
    + intros (q & Hq & ->). injection Hq as <-. unfold ret. rewrite E. reflexivity.
Qed.

Lemma leb_24_not_below (hours : float) :
  (24 <=? hours)%float = true ->
  (hours <? 1)%float = false /\ (hours <? 24)%float = false.
Proof.
  intros H. split.
  - apply leb_true_ltb_false. apply (leb_trans _ 24 _); [reflexivity | exact H].
  - apply leb_true_ltb_false. exact H.
Qed.

Lemma int_of_float_value (x : float) (q : Q) :
  float_value x = Some q -> int_of_float x = inr (truncate q).
Proof.
  intros H. apply int_of_float_truncates. exists q. split; [exact H | reflexivity].
Qed.

(** C5: every component that [format_time_until] displays is the value
    of a float truncated toward zero, not rounded: below 1 hour the
    minutes, from 1 hour and below 24 hours the hours and the minutes
    of the rest, from 24 hours on the days and the hours of the rest;
    and 0.5, 1.0, 23.999, 24.0 and 49.5 hours read "30m", "1h 0m",
    "23h 59m", "1d 0h" and "2d 1h". *)
Theorem format_time_until_truncates :
  (forall (hours : float) (s : string),
      (hours <? 1)%float = true ->
      (format_time_until hours = inr s <->
       exists minutes : Q,
         float_value (hours * 60)%float = Some minutes
         /\ s = str_int (truncate minutes) ++ "m"))
  /\ (forall (hours : float) (s : string),
        (1 <=? hours)%float = true -> (hours <? 24)%float = true ->
        (format_time_until hours = inr s <->
         exists (h m : Q) (whole : float),
           float_value hours = Some h
           /\ float_of_int (truncate h) = inr whole
           /\ float_value ((hours - whole) * 60)%float = Some m
           /\ s = str_int (truncate h) ++ "h " ++ str_int (truncate m) ++ "m"))
  /\ (forall (hours : float) (s : string),
        (24 <=? hours)%float = true ->
        (format_time_until hours = inr s <->
         exists (days h : Q) (rest : float),
           float_value (hours / 24)%float = Some days
           /\ float_mod hours 24 = inr rest
           /\ float_value rest = Some h
           /\ s = str_int (truncate days) ++ "d " ++ str_int (truncate h) ++ "h"))
  /\ format_time_until 0.5 = inr "30m"
  /\ format_time_until 1.0 = inr "1h 0m"
  /\ format_time_until 23.999 = inr "23h 59m"
  /\ format_time_until 24.0 = inr "1d 0h"
  /\ format_time_until 49.5 = inr "2d 1h".
Proof.
  split; [| split; [| split]].
  - intros hours s H. unfold format_time_until. rewrite H. split.
    + intros E. bind_inv E. injection E as <-.
      apply int_of_float_truncates in Ha. destruct Ha as (q & Hq & ->).
      exists q. split; [exact Hq | reflexivity].
    + intros (q & Hq & ->). rewrite (int_of_float_value _ _ Hq). reflexivity.
  - intros hours s H1 H24. unfold format_time_until.
    rewrite (leb_true_ltb_false _ _ H1), H24. split.
    + intros E. bind_inv E. rename a into h, Ha into Hh.
      bind_inv E. rename a into whole, Ha into Hw.
      bind_inv E. rename a into m, Ha into Hm. injection E as <-.
      apply int_of_float_truncates in Hh. destruct Hh as (qh & Hqh & ->).
      apply int_of_float_truncates in Hm. destruct Hm as (qm & Hqm & ->).
      exists qh, qm, whole. auto.
    + intros (qh & qm & whole & Hqh & Hw & Hqm & ->).
      rewrite (int_of_float_value _ _ Hqh). cbn [bind]. rewrite Hw. cbn [bind].
      rewrite (int_of_float_value _ _ Hqm). reflexivity.
  - intros hours s H. unfold format_time_until.
    destruct (leb_24_not_below hours H) as [-> ->]. split.
    + intros E. bind_inv E. rename a into days, Ha into Hd.
      bind_inv E. rename a into rest, Ha into Hr.
      bind_inv E. rename a into h, Ha into Hh. injection E as <-.
      apply int_of_float_truncates in Hd. destruct Hd as (qd & Hqd & ->).
      apply int_of_float_truncates in Hh. destruct Hh as (qh & Hqh & ->).
      exists qd, qh, rest. auto.
    + intros (qd & qh & rest & Hqd & Hr & Hqh & ->).
      rewrite (int_of_float_value _ _ Hqd). cbn [bind]. rewrite Hr. cbn [bind].
      rewrite (int_of_float_value _ _ Hqh). reflexivity.
  - repeat split; vm_compute; reflexivity.
Qed.

(** ** Spread *)

Lemma or_else_quoted (v : option Z) (n d : Z) : quoted v n -> or_else v d = n.
Proof.
  intros [-> Hn]. unfold or_else, truthy.
  destruct (Z.eqb_spec n 0); [contradiction | reflexivity].
Qed.

Lemma or_else_unquoted (v : option Z) (d : Z) : unquoted v -> or_else v d = d.
Proof.
  intros [-> | ->]; reflexivity.
Qed.

Lemma truthy_nonzero (n : Z) : n <> 0 -> truthy n = true.
Proof.
  intros H. unfold truthy. destruct (Z.eqb_spec n 0); [contradiction | reflexivity].
Qed.

Lemma calculate_spread_quoted (market : Market.t) (bid ask : Z) :
  quoted (Market.yes_bid market) bid -> quoted (Market.yes_ask market) ask ->
  calculate_spread market = (ask - bid, SPREAD_THRESHOLD_CENTS <? ask - bid).
Proof.
  intros Hb Ha. unfold calculate_spread.
  rewrite (or_else_quoted _ _ 0 Hb), (or_else_quoted _ _ 0 Ha).
  rewrite (truthy_nonzero _ (proj2 Hb)), (truthy_nonzero _ (proj2 Ha)).
  reflexivity.
Qed.

Lemma calculate_spread_unquoted (market : Market.t) :
  unquoted (Market.yes_bid market) \/ unquoted (Market.yes_ask market) ->
  calculate_spread market = (0, false).
Proof.
  intros [H | H]; unfold calculate_spread; rewrite (or_else_unquoted _ 0 H).
  - reflexivity.
  - rewrite andb_false_r. reflexivity.
Qed.

(** C6: the spread is [yes_ask - yes_bid] when both the bid and the ask
    are present and non-zero, and 0 otherwise; it is wide exactly when
    it exceeds 10; a bid of 40 with an ask of 55 gives (15, true), with
    an ask of 45 gives (5, false), and a bid of 0 with an ask of 50
    gives (0, false). *)
Theorem calculate_spread_spec :
  (forall (market : Market.t) (bid ask : Z),
      quoted (Market.yes_bid market) bid -> quoted (Market.yes_ask market) ask ->
      fst (calculate_spread market) = ask - bid)
  /\ (forall market : Market.t,
        unquoted (Market.yes_bid market) \/ unquoted (Market.yes_ask market) ->
        fst (calculate_spread market) = 0)
  /\ (forall market : Market.t,
        snd (calculate_spread market) = true <-> 10 < fst (calculate_spread market))
  /\ (forall market : Market.t,
        Market.yes_bid market = Some 40 -> Market.yes_ask market = Some 55 ->
        calculate_spread market = (15, true))
  /\ (forall market : Market.t,
        Market.yes_bid market = Some 40 -> Market.yes_ask market = Some 45 ->
        calculate_spread market = (5, false))
  /\ (forall market : Market.t,
        Market.yes_bid market = Some 0 -> Market.yes_ask market = Some 50 ->
        calculate_spread market = (0, false)).
Proof.
  split; [| split; [| split; [| split; [| split]]]].
  - intros market bid ask Hb Ha.
    rewrite (calculate_spread_quoted market bid ask Hb Ha). reflexivity.
  - intros market H. rewrite (calculate_spread_unquoted market H). reflexivity.
  - intros market. unfold calculate_spread, SPREAD_THRESHOLD_CENTS. simpl.
    apply Z.ltb_lt.
  - intros market Hb Ha. unfold calculate_spread. rewrite Hb, Ha. reflexivity.
  - intros market Hb Ha. unfold calculate_spread. rewrite Hb, Ha. reflexivity.
  - intros market Hb Ha. unfold calculate_spread. rewrite Hb, Ha. reflexivity.
Qed.

(** ** Rows *)

Lemma present_some (v : option Z) (n : Z) : present v = Some n -> quoted v n.
Proof.
  destruct v as [k |]; simpl; [| discriminate].
  destruct (Z.eqb_spec k 0); [discriminate |].
  intros H. injection H as <-. split; [reflexivity | assumption].
Qed.

Lemma present_none (v : option Z) : present v = None -> unquoted v.
Proof.
  destruct v as [k |]; simpl; [| left; reflexivity].
  destruct (Z.eqb_spec k 0); [subst; right; reflexivity | discriminate].
Qed.

Lemma yesPrice_nonzero (market : Market.t) (yes : Z) :
  yesPrice market = Some yes -> yes <> 0.
Proof.
  unfold yesPrice.
  destruct (present (Market.yes_bid market)) as [bid |] eqn:Eb.
  - intros H. injection H as <-. exact (proj2 (present_some _ _ Eb)).
  - intros H. exact (proj2 (present_some _ _ H)).
Qed.

Lemma yes_price_of_spec (market : Market.t) :
  yes_price_of market = amount (yesPrice market).
Proof.
  unfold yes_price_of, yesPrice.
  destruct (present (Market.yes_bid market)) as [bid |] eqn:Eb.
  - apply or_else_quoted. exact (present_some _ _ Eb).
  - rewrite (or_else_unquoted _ _ (present_none _ Eb)).
    destruct (present (Market.last_price market)) as [last |] eqn:El.
    + apply or_else_quoted. exact (present_some _ _ El).
    + apply or_else_unquoted. exact (present_none _ El).
Qed.

Lemma no_price_of_spec (market : Market.t) :
  no_price_of market = amount (noPrice market).
Proof.
  unfold no_price_of, noPrice. rewrite yes_price_of_spec.
  destruct (present (Market.no_bid market)) as [bid |] eqn:Eb.
  - apply or_else_quoted. exact (present_some _ _ Eb).
  - rewrite (or_else_unquoted _ _ (present_none _ Eb)).
    destruct (yesPrice market) as [yes |] eqn:Ey; simpl.
    + rewrite (truthy_nonzero _ (yesPrice_nonzero _ _ Ey)). reflexivity.
    + reflexivity.
Qed.

Lemma price_cell_amount (price : option Z) :
  price_cell (amount price) = formatPrice price.
Proof.
  unfold price_cell, formatPrice, truthy.
  destruct price as [n |]; simpl; [| reflexivity].
  destruct (n =? 0); reflexivity.
Qed.

Lemma render_row_inv (data : View.t) (row : Console.row) (wide : bool) :
  render_row data = inr (row, wide) ->
  spread_cell_of (View.market data) = inr (Console.spread_cell row, wide)
  /\ Console.market_cell row = display_title (Market.title (View.market data))
  /\ price_cell (yes_price_of (View.market data)) = inr (Console.yes_cell row)
  /\ price_cell (no_price_of (View.market data)) = inr (Console.no_cell row)
  /\ format_time_until (View.hours_until_close data) = inr (Console.time_cell row).
Proof.
  unfold render_row. intros H.
  bind_inv H. destruct a as [spread_str is_wide]. rename Ha into Hs.
  bind_inv H. rename a into yes_str, Ha into Hy.
  bind_inv H. rename a into no_str, Ha into Hn.
  bind_inv H. rename a into time_str, Ha into Ht.
  injection H as <- <-. simpl. auto.
Qed.

(** C7: in every rendered row the yes price shown is the yes bid if it
    is present (not [None], not zero), else the last price if it is
    present, else a dash, and the no price shown is the no bid if it is
    present, else 100 minus the yes price if that is present, else a
    dash, a price of zero being shown as a dash like an absent one; a
    market without a yes bid or a no bid and with a last price of 62
    shows "$0.62" and "$0.38". *)
Theorem displayed_prices :
  (forall (data : View.t) (row : Console.row) (wide : bool),
      render_row data = inr (row, wide) ->
      formatPrice (yesPrice (View.market data)) = inr (Console.yes_cell row)
      /\ formatPrice (noPrice (View.market data)) = inr (Console.no_cell row))
  /\ (forall market : Market.t,
        price_cell (yes_price_of market) = formatPrice (yesPrice market)
        /\ price_cell (no_price_of market) = formatPrice (noPrice market))
  /\ (forall market : Market.t,
        Market.yes_bid market = None -> Market.no_bid market = None ->
        Market.last_price market = Some 62 ->
        price_cell (yes_price_of market) = inr "$0.62"
        /\ price_cell (no_price_of market) = inr "$0.38")
  /\ (exists row : Console.row,
        render_row (view_of (market_with None None None (Some 62)) 0.5 0) = inr (row, false)
        /\ Console.yes_cell row = "$0.62"
        /\ Console.no_cell row = "$0.38").
Proof.
  assert (Hcells : forall market : Market.t,
             price_cell (yes_price_of market) = formatPrice (yesPrice market)
             /\ price_cell (no_price_of market) = formatPrice (noPrice market)).
  { intros market. rewrite yes_price_of_spec, no_price_of_spec.
    split; apply price_cell_amount. }
  split; [| split; [exact Hcells | split]].
  - intros data row wide H.
    destruct (render_row_inv _ _ _ H) as (_ & _ & Hy & Hn & _).
    destruct (Hcells (View.market data)) as [<- <-]. auto.
  - intros market Hy Hn Hl. unfold no_price_of, yes_price_of.
    rewrite Hy, Hn, Hl. split; vm_compute; reflexivity.
  - eexists. split; [vm_compute; reflexivity | split; reflexivity].
Qed.

(** ** Titles *)

Lemma len_append (s t : string) : len (s ++ t) = (len s + len t)%nat.
Proof.
  induction s as [| c s IH]; simpl; [reflexivity |].
  destruct (continuation c); rewrite IH; reflexivity.
Qed.

Lemma prefix_split (s : string) :
  forall n : nat,
    (n <= len s)%nat ->
    len (prefix n s) = n
    /\ exists rest : string,
         s = prefix n s ++ rest /\ whole_characters rest /\ len rest = (len s - n)%nat.
Proof.
  induction s as [| c s IH]; intros n Hn.
  - simpl in Hn. assert (n = O) by lia. subst n. simpl.
    split; [reflexivity |]. exists "". repeat split.
  - simpl in Hn |- *. destruct (continuation c) eqn:Ec.
    + destruct (IH n Hn) as (Hlen & rest & Hrest & Hw & Hl).
      simpl. rewrite Ec. split; [exact Hlen |].
      exists rest. split; [rewrite <- Hrest; reflexivity |]. split; assumption.
    + destruct n as [| n].
      * split; [reflexivity |]. exists (String c s).
        split; [reflexivity |]. split; [exact Ec |].
        simpl. rewrite Ec. reflexivity.
      * destruct (IH n) as (Hlen & rest & Hrest & Hw & Hl); [lia |].
        simpl. rewrite Ec, Hlen. split; [reflexivity |].
        exists rest. split; [rewrite <- Hrest; reflexivity |]. split; assumption.
Qed.

Lemma ascii_only_len (s : string) :
  ascii_only s = true ->
  len s = String.length s /\ forall n : nat, prefix n s = String.substring 0 n s.
Proof.
  induction s as [| c s IH]; intros H.
  - split; [reflexivity |]. intros [| n]; reflexivity.
  - destruct c as [b0 b1 b2 b3 b4 b5 b6 b7]. simpl in H.
    apply andb_prop in H. destruct H as [Hb Hs].
    destruct b7; [discriminate |]. destruct (IH Hs) as [Hlen Hpre].
    split.
    + simpl. rewrite Hlen. reflexivity.
    + intros [| n]; simpl; [reflexivity | rewrite Hpre; reflexivity].
Qed.

Lemma display_title_long (title : string) :
  (47 < len title)%nat ->
  display_title title = prefix 47 title ++ "...".
Proof.
  intros H. unfold display_title.
  apply Nat.ltb_lt in H. rewrite H. reflexivity.
Qed.

Lemma display_title_len (title : string) :
  len (display_title title) = (if (47 <? len title)%nat then 50 else len title)%nat.
Proof.
  unfold display_title. destruct (47 <? len title)%nat eqn:E; [| reflexivity].
  apply Nat.ltb_lt in E. rewrite len_append.
  destruct (prefix_split title 47) as [-> _]; [lia | reflexivity].
Qed.

(** C8: a title of more than 47 characters is rendered as its first 47
    characters followed by "...", the cut falling between two
    characters, and a title of 47 characters or fewer is rendered
    unchanged; this is the market cell of every rendered row.
    Characters are counted as [len] counts them, not bytes: a title of
    47 characters is left whole although one of them takes three bytes,
    and a title whose 47th character is outside ASCII keeps that
    character.  On an ASCII title the count is the number of bytes.  A
    title of 60 characters is rendered as its first 47 characters
    followed by "...", 50 characters in all. *)
Theorem title_truncation :
  (forall title : string,
      (47 < len title)%nat ->
      display_title title = prefix 47 title ++ "..."
      /\ len (prefix 47 title) = 47%nat
      /\ exists rest : string,
           title = prefix 47 title ++ rest
           /\ whole_characters rest
           /\ len rest = (len title - 47)%nat)
  /\ (forall title : string,
        (len title <= 47)%nat -> display_title title = title)
  /\ (forall (data : View.t) (row : Console.row) (wide : bool),
        render_row data = inr (row, wide) ->
        Console.market_cell row = display_title (Market.title (View.market data)))
  /\ (forall title : string,
        len title = 60%nat ->
        display_title title = prefix 47 title ++ "..."
        /\ len (display_title title) = 50%nat)
  /\ (forall title : string,
        ascii_only title = true ->
        len title = String.length title
        /\ prefix 47 title = String.substring 0 47 title)
  /\ (len sixty_characters = 60%nat
      /\ display_title sixty_characters
         = "Will the closing price be above the threshold o...")
  /\ (len fed_title = 47%nat
      /\ String.length fed_title = 49%nat
      /\ display_title fed_title = fed_title)
  /\ (len cafe_title = 63%nat
      /\ display_title cafe_title
         = "Will the Fed’s rate sit above 5% after the café...").
Proof.
  split; [| split; [| split; [| split; [| split; [| split; [| split]]]]]].
  - intros title H. split; [exact (display_title_long title H) |].
    apply prefix_split. lia.
  - intros title H. unfold display_title.
    apply Nat.ltb_ge in H. rewrite H. reflexivity.
  - intros data row wide H.
    exact (proj1 (proj2 (render_row_inv _ _ _ H))).
  - intros title H.
    assert (Hlong : (47 < len title)%nat) by lia.
    split; [exact (display_title_long title Hlong) |].
    rewrite display_title_len.
    apply Nat.ltb_lt in Hlong. rewrite Hlong. reflexivity.
  - intros title H. destruct (ascii_only_len title H) as [Hlen Hpre].
    split; [exact Hlen | apply Hpre].
  - split; reflexivity.
  - repeat split.
  - split; reflexivity.
Qed.

(** ** Spread cells *)

Lemma cents_to_dollars_dollar (cents : Z) (s : string) :
  cents_to_dollars cents = inr s -> exists digits, s = String "$" digits.
Proof.
  unfold cents_to_dollars. intros H. bind_inv H.
  injection H as <-. eexists. reflexivity.
Qed.

Lemma plain_spread_not_flagged (spread : Z) (cell : string) :
  (if 0 <? spread then cents_to_dollars spread else ret "-") = inr cell ->
  ~ flagged cell.
Proof.
  intros H [inner Hf]. destruct (0 <? spread).
  - destruct (cents_to_dollars_dollar _ _ H) as [digits ->]. discriminate.
  - injection H as <-. discriminate.
Qed.

Lemma spread_cell_of_spec (market : Market.t) (cell : string) (wide : bool) :
  spread_cell_of market = inr (cell, wide) ->
  wide = snd (calculate_spread market) /\ (flagged cell <-> wide = true).
Proof.
  unfold spread_cell_of.
  destruct (calculate_spread market) as [spread is_wide]. intros H.
  bind_inv H. rename a into spread_str, Ha into Hs. simpl.
  destruct is_wide; injection H as <- <-.
  - split; [reflexivity |]. split; [reflexivity |].
    intros _. exists spread_str. reflexivity.
  - split; [reflexivity |]. split; [| discriminate].
    intros Hf. exfalso. exact (plain_spread_not_flagged _ _ Hs Hf).
Qed.

Lemma spread_cell_of_nonpositive (market : Market.t) (spread : Z) :
  calculate_spread market = (spread, false) -> spread <= 0 ->
  spread_cell_of market = inr ("-", false).
Proof.
  intros Hc Hs. unfold spread_cell_of. rewrite Hc.
  replace (0 <? spread) with false by (symmetry; apply Z.ltb_ge; exact Hs).
  reflexivity.
Qed.

(** C10: when the yes bid and the yes ask are both present and non-zero
    but crossed, the ask below the bid, the spread is strictly
    negative and not wide, and the spread cell is the plain dash, the
    very cell of a market whose bid or ask is absent. *)
Theorem crossed_market_spread (market : Market.t) (bid ask : Z) :
  quoted (Market.yes_bid market) bid ->
  quoted (Market.yes_ask market) ask ->
  ask < bid ->
  calculate_spread market = (ask - bid, false)
  /\ fst (calculate_spread market) < 0
  /\ spread_cell_of market = inr ("-", false)
  /\ (forall other : Market.t,
        unquoted (Market.yes_bid other) \/ unquoted (Market.yes_ask other) ->
        spread_cell_of other = spread_cell_of market)
  /\ (forall (data : View.t) (row : Console.row) (wide : bool),
        View.market data = market ->
        render_row data = inr (row, wide) ->
        Console.spread_cell row = "-" /\ wide = false).
Proof.
  intros Hb Ha Hcross.
  assert (Hc : calculate_spread market = (ask - bid, false)).
  { rewrite (calculate_spread_quoted market bid ask Hb Ha).
    unfold SPREAD_THRESHOLD_CENTS.
    replace (10 <? ask - bid) with false by (symmetry; apply Z.ltb_ge; lia).
    reflexivity. }
  assert (Hcell : spread_cell_of market = inr ("-", false)).
  { apply (spread_cell_of_nonpositive market (ask - bid) Hc). lia. }
  split; [exact Hc |]. split; [rewrite Hc; simpl; lia |]. split; [exact Hcell |]. split.
  - intros other Ho. rewrite Hcell.
    apply (spread_cell_of_nonpositive other 0); [| lia].
    apply calculate_spread_unquoted. exact Ho.
  - intros data row wide Hm H.
    destruct (render_row_inv _ _ _ H) as (Hs & _). rewrite Hm, Hcell in Hs.
    injection Hs as <- <-. split; reflexivity.
Qed.

Lemma crossed_market_spread_witness :
  calculate_spread (market_with (Some 60) (Some 40) None None) = (40 - 60, false)
  /\ fst (calculate_spread (market_with (Some 60) (Some 40) None None)) < 0
  /\ spread_cell_of (market_with (Some 60) (Some 40) None None) = inr ("-", false)
  /\ (forall other : Market.t,
        unquoted (Market.yes_bid other) \/ unquoted (Market.yes_ask other) ->
        spread_cell_of other = spread_cell_of (market_with (Some 60) (Some 40) None None))
  /\ (forall (data : View.t) (row : Console.row) (wide : bool),
        View.market data = market_with (Some 60) (Some 40) None None ->
        render_row data = inr (row, wide) ->
        Console.spread_cell row = "-" /\ wide = false).
Proof.
  apply (crossed_market_spread (market_with (Some 60) (Some 40) None None) 60 40).
  - split; [reflexivity | discriminate].
  - split; [reflexivity | discriminate].
  - reflexivity.
Defined.

(** ** The table and the summary *)

Lemma wide_count_cons (data : View.t) (rest : list View.t) :
  wide_count (data :: rest)
  = if is_wide data then wide_count rest + 1 else wide_count rest.
Proof.
  unfold wide_count. simpl. destruct (is_wide data); [| reflexivity].
  simpl List.length. lia.
Qed.

Lemma wide_count_nonneg (markets_data : list View.t) : 0 <= wide_count markets_data.
Proof. unfold wide_count. lia. Qed.

Lemma render_row_wide (data : View.t) (row : Console.row) (wide : bool) :
  render_row data = inr (row, wide) ->
  wide = is_wide data /\ (flagged (Console.spread_cell row) <-> is_wide data = true).
Proof.
  intros H. destruct (render_row_inv _ _ _ H) as (Hs & _).
  destruct (spread_cell_of_spec _ _ _ Hs) as [Hw Hf].
  unfold is_wide. rewrite <- Hw. auto.
Qed.

Lemma add_rows_spec (markets_data : list View.t) :
  forall (table table' : Console.table) (count count' : Z),
    add_rows markets_data table count = inr (table', count') ->
    exists rows : list Console.row,
      Forall2 rendered markets_data rows
      /\ table' = {| Console.title := Console.title table;
                     Console.columns := Console.columns table;
                     Console.rows := (Console.rows table ++ rows)%list |}
      /\ count' = count + wide_count markets_data.
Proof.
  induction markets_data as [| data rest IH]; intros table table' count count' H.
  - injection H as <- <-. exists []. split; [constructor |]. split.
    + rewrite app_nil_r. destruct table; reflexivity.
    + unfold wide_count. simpl. lia.
  - cbn [add_rows] in H. bind_inv H. destruct a as [row wide]. rename Ha into Hr.
    destruct (render_row_wide _ _ _ Hr) as [-> Hf].
    destruct (IH _ _ _ _ H) as (rows & Hrows & -> & ->).
    exists (row :: rows). split; [constructor; [split; assumption | exact Hrows] |].
    split.
    + simpl. rewrite <- app_assoc. reflexivity.
    + rewrite wide_count_cons. destruct (is_wide data); lia.
Qed.

(** C9: when a non-empty list of views is rendered, the table has one
    row per view, in order; the spread cell of a row is in the flagged
    style exactly when the spread of its market is wide; the line with
    the total count is always printed; and the line with the count of
    wide spreads, which is the number of those rows, is printed exactly
    when that count is not zero. *)
Theorem wide_spread_rows_and_summary
    (markets_data : list View.t) (out : list Console.printed) :
  markets_data <> [] ->
  display_markets markets_data = inr out ->
  exists rows : list Console.row,
    Forall2 rendered markets_data rows
    /\ out = (Console.Table {| Console.title := Console.title empty_table;
                               Console.columns := Console.columns empty_table;
                               Console.rows := rows |}
              :: Console.Line (total_line markets_data)
              :: (if wide_count markets_data =? 0 then []
                  else [Console.Line (wide_line (wide_count markets_data))]))%list.
Proof.
  intros Hne H. destruct markets_data as [| data rest]; [contradiction |].
  unfold display_markets in H. bind_inv H. destruct a as [table count].
  destruct (add_rows_spec _ _ _ _ _ Ha) as (rows & Hrows & -> & ->).
  exists rows. split; [exact Hrows |].
  pose proof (wide_count_nonneg (data :: rest)) as Hpos.
  rewrite Z.add_0_l in H.
  destruct (wide_count (data :: rest) =? 0) eqn:E.
  - apply Z.eqb_eq in E. rewrite E in H. simpl in H. injection H as <-. reflexivity.
  - apply Z.eqb_neq in E.
    replace (0 <? wide_count (data :: rest)) with true in H
      by (symmetry; apply Z.ltb_lt; lia).
    assert (Ht : cents_to_dollars SPREAD_THRESHOLD_CENTS = inr "$0.10")
      by (vm_compute; reflexivity).
    rewrite Ht in H. simpl in H. injection H as <-. reflexivity.
Qed.

Lemma wide_spread_rows_and_summary_witness :
  exists rows : list Console.row,
    Forall2 rendered sample_views rows
    /\ display_markets sample_views
       = inr (Console.Table {| Console.title := Console.title empty_table;
                               Console.columns := Console.columns empty_table;
                               Console.rows := rows |}
              :: Console.Line (total_line sample_views)
              :: (if wide_count sample_views =? 0 then []
                  else [Console.Line (wide_line (wide_count sample_views))]))%list.
Proof.
  destruct (wide_spread_rows_and_summary sample_views
              (match display_markets sample_views with
               | inr out => out
               | inl _ => []
               end)) as (rows & Hrows & Hout).
  - discriminate.
  - vm_compute. reflexivity.
  - exists rows. split; [exact Hrows |]. rewrite <- Hout. vm_compute. reflexivity.
Defined.

(** ** Instances *)

Example sort_views_ties :
  map (fun v => Market.title (View.market v))
      (sort View.hours_until_close
         [view_of (unquoted_market "a" 0) 2 0;
          view_of (unquoted_market "b" 0) 0.5 0;
          view_of (unquoted_market "c" 0) 2 0;
          view_of (unquoted_market "d" 0) 0.5 0])
  = ["b"; "d"; "a"; "c"].
Proof. reflexivity. Qed.

Lemma enriched_views_close_later_witness :
  let now := utc sample_now in
  let markets := [closing_soon; closing_beyond; closed_already] in
  let views := [view_of closing_soon 0.5 (sample_now + 1800000000);
                view_of closing_beyond 25 (sample_now + 90000000000)] in
  Forall closes_later views
  /\ (forall view : View.t,
        In view views <->
        exists market, In market markets
                       /\ enrich_one no_fromisoformat now market = inr (Some view))
  /\ map View.market views = filter (keeps no_fromisoformat now) markets
  /\ (forall (market : Market.t) (close_time : datetime) (hours : float),
        In market markets ->
        normalize_close_time no_fromisoformat market = inr close_time ->
        hours_left now close_time = inr hours ->
        (hours <=? 0)%float = true ->
        enrich_one no_fromisoformat now market = inr None
        /\ ~ In market (map View.market views))
  /\ (forall (market : Market.t) (close_time : datetime),
        In market markets ->
        normalize_close_time no_fromisoformat market = inr close_time ->
        micros close_time <= micros now ->
        ~ In market (map View.market views)).
Proof.
  apply (enriched_views_close_later no_fromisoformat (utc sample_now)
           [closing_soon; closing_beyond; closed_already]).
  vm_compute. reflexivity.
Defined.

Lemma fetch_pages_until_cursor_exhausted_witness :
  let first := {| Response.markets := [closing_soon; closing_beyond];
                  Response.cursor := Some "page-2" |} in
  let second := {| Response.markets := [closed_already];
                   Response.cursor := Some "" |} in
  fetch_pages _ (logged scripted) 2 ([first; second], []) 1700000000 1700086400 None []
  = Some (ret ([closing_soon; closing_beyond; closed_already],
               ([], [(listing_request 1700000000 1700086400 None, first);
                     (listing_request 1700000000 1700086400 (Some "page-2"), second)]))).
Proof.
  intros first second.
  apply (proj1 (proj2 (proj2 (proj2 (proj2
           (proj1 fetch_pages_until_cursor_exhausted (list Response.t) scripted
              1700000000 1700086400 [first; second] [first; second] []
              (exhausts_next _ scripted 1700000000 1700086400
                 [first; second] None first [second] [second] []
                 eq_refl eq_refl
                 (exhausts_last _ scripted 1700000000 1700086400
                    [second] (Some "page-2") second [] eq_refl eq_refl))))))) 2%nat).
  apply le_n.
Defined.

(* ================================================================= *)
(** * Further properties of the pipeline *)

(** ** Exceptions of the listing capability *)

Section FetchFailure.
Variable Client : Type.
Variable get_markets : Client -> Request.t -> result (Response.t * Client).

Lemma fetch_pages_breaks (lo hi : Z) (client : Client) (cursor : option string)
    (pages : list Response.t) (e : exn) :
  breaks get_markets lo hi client cursor pages e ->
  forall (fuel : nat) (acc : list Market.t),
    (List.length pages < fuel)%nat ->
    fetch_pages Client get_markets fuel client lo hi cursor acc = Some (inl e).
Proof.
  induction 1 as [c cur e Hg | c cur p c' ps e Hg Hp Hrest IH];
    intros fuel acc Hfuel; (destruct fuel as [| fuel]; [simpl in Hfuel; lia |]);
    simpl; rewrite Hg.
  - reflexivity.
  - rewrite Hp. simpl. apply IH. simpl in Hfuel. lia.
Qed.

End FetchFailure.



(** ** The list that the pipeline returns *)

Lemma enrich_view_matches (fromisoformat : string -> result datetime) (now : datetime)
    (markets : list Market.t) (views : list View.t) :
  enrich fromisoformat now markets = inr views ->
  Forall (view_matches fromisoformat now) views.
Proof.
  intros H. apply Forall_forall. intros view Hv.
  destruct (proj1 (enrich_In fromisoformat now markets views H view) Hv) as (m & _ & He).
  destruct (enrich_one_some _ _ _ _ He) as (c & h & Hc & Hh & _ & ->).
  split; assumption.
Qed.

Lemma enrich_length (fromisoformat : string -> result datetime) (now : datetime)
    (markets : list Market.t) (views : list View.t) :
  enrich fromisoformat now markets = inr views ->
  (List.length views <= List.length markets)%nat.
Proof.
  intros H. rewrite <- (length_map View.market views).
  rewrite (enrich_markets _ _ _ _ H). apply filter_length_le.
Qed.

(** X2: whenever [get_markets_closing_soon] returns, the listing has
    been read to its empty cursor, and the list it returns holds the
    views of the markets of all pages that enrichment kept, each once:
    it is no longer than the list of markets fetched, every view has
    more than zero hours left and carries the close time and the hours
    computed for its own market at the one captured [now]. *)
Theorem closing_soon_views_of_kept_markets
    (Client : Type) (get_markets : Client -> Request.t -> result (Response.t * Client))
    (fromisoformat : string -> result datetime)
    (fuel : nat) (client client' : Client) (now_micros hours : Z)
    (views : list View.t) :
  get_markets_closing_soon Client get_markets fromisoformat fuel client now_micros hours
  = Some (inr (views, client')) ->
  exists (lo hi : Z) (pages : list Response.t) (kept : list View.t),
    time_window (utc now_micros) hours = inr (lo, hi)
    /\ exhausts get_markets lo hi client None pages client'
    /\ enrich fromisoformat (utc now_micros) (all_markets pages) = inr kept
    /\ Permutation views kept
    /\ (List.length views <= List.length (all_markets pages))%nat
    /\ Forall closes_later views
    /\ Forall (view_matches fromisoformat (utc now_micros)) views.
Proof.
  unfold get_markets_closing_soon. intros H.
  destruct (time_window (utc now_micros) hours) as [e | [lo hi]] eqn:Hw; [discriminate |].
  destruct (fetch_pages Client get_markets fuel client lo hi None [])
    as [[e | [fetched client1]] |] eqn:Hf; try discriminate.
  injection H as H.
  bind_inv H. rename a into kept, Ha into Hk. injection H as <- <-.
  destruct (fetch_pages_returns _ _ _ _ _ _ _ _ _ _ Hf) as (pages & Hex & Hm & _).
  simpl in Hm. subst fetched.
  pose proof (enrich_closes_later _ _ _ _ Hk) as Hpos.
  pose proof (sort_perm View.hours_until_close kept) as Hperm.
  exists lo, hi, pages, kept.
  split; [reflexivity |]. split; [exact Hex |]. split; [exact Hk |].
  split; [exact Hperm |]. split; [| split].
  - rewrite (Permutation_length Hperm). exact (enrich_length _ _ _ _ Hk).
  - apply sort_Forall. exact Hpos.
  - apply sort_Forall. exact (enrich_view_matches _ _ _ _ Hk).
Qed.

Lemma closing_soon_views_of_kept_markets_witness :
  exists (lo hi : Z) (pages : list Response.t) (kept : list View.t),
    time_window (utc sample_now) HOURS_THRESHOLD = inr (lo, hi)
    /\ exhausts scripted lo hi
         [{| Response.markets := [closing_beyond; closed_already; closing_soon];
             Response.cursor := None |}] None pages []
    /\ enrich no_fromisoformat (utc sample_now) (all_markets pages) = inr kept
    /\ Permutation [view_of closing_soon 0.5 (sample_now + 1800000000);
                    view_of closing_beyond 25 (sample_now + 90000000000)] kept
    /\ (2 <= List.length (all_markets pages))%nat
    /\ Forall closes_later
         [view_of closing_soon 0.5 (sample_now + 1800000000);
          view_of closing_beyond 25 (sample_now + 90000000000)]
    /\ Forall (view_matches no_fromisoformat (utc sample_now))
         [view_of closing_soon 0.5 (sample_now + 1800000000);
          view_of closing_beyond 25 (sample_now + 90000000000)].
Proof.
  apply (closing_soon_views_of_kept_markets (list Response.t) scripted no_fromisoformat 1
           [{| Response.markets := [closing_beyond; closed_already; closing_soon];
               Response.cursor := None |}] [] sample_now HOURS_THRESHOLD).
  vm_compute. reflexivity.
Defined.

(** ** Exceptions of the enrichment loop *)

Section EnrichFailure.
Variable fromisoformat : string -> result datetime.
Variable now : datetime.

Lemma enrich_returns_iff (markets : list Market.t) :
  (exists views, enrich fromisoformat now markets = inr views)
  <-> Forall (enriches fromisoformat now) markets.
Proof.
  induction markets as [| m ms IH].
  - split; [constructor | exists []; reflexivity].
  - split.
    + intros (views & H).
      destruct (enrich_cons _ _ _ _ _ H) as (v & views' & Hv & Hrest & _).
      constructor; [exists v; exact Hv |].
      apply IH. exists views'. exact Hrest.
    + intros H. inversion H as [| ? ? [v Hv] Hms]; subst.
      destruct (proj2 IH Hms) as (views' & Hrest).
      simpl. rewrite Hv, Hrest. simpl. eexists. reflexivity.
Qed.

Lemma enrich_raises_iff (markets : list Market.t) (e : exn) :
  enrich fromisoformat now markets = inl e
  <-> exists (before : list Market.t) (market : Market.t) (rest : list Market.t),
        markets = (before ++ market :: rest)%list
        /\ Forall (enriches fromisoformat now) before
        /\ enrich_one fromisoformat now market = inl e.
Proof.
  revert e. induction markets as [| m ms IH]; intros e.
  - split; [discriminate |].
    intros (before & market & rest & H & _). destruct before; discriminate.
  - split.
    + intros H. simpl in H.
      destruct (enrich_one fromisoformat now m) as [e1 | v] eqn:Hv.
      * injection H as ->. exists [], m, ms. split; [reflexivity |].
        split; [constructor | exact Hv].
      * simpl in H.
        destruct (enrich fromisoformat now ms) as [e2 | views'] eqn:Hrest;
          [| discriminate].
        injection H as ->.
        destruct (proj1 (IH e) eq_refl) as (before & market & rest & -> & Hb & He).
        exists (m :: before), market, rest. split; [reflexivity |].
        split; [constructor; [exists v; exact Hv | exact Hb] | exact He].
    + intros (before & market & rest & Hm & Hb & He).
      destruct before as [| b before]; simpl in Hm; injection Hm as <- ->.
      * simpl. rewrite He. reflexivity.
      * inversion Hb as [| ? ? [v Hv] Hb']; subst.
        simpl. rewrite Hv. simpl.
        rewrite (proj2 (IH e)); [reflexivity |].
        exists before, market, rest. auto.
Qed.
End EnrichFailure.

(** X3: the enrichment loop returns a list exactly when every market
    gets through it, and otherwise raises the exception of the first
    market that fails; the views of the markets before it are not
    returned. *)
Theorem enrich_raises_first_failure
    (fromisoformat : string -> result datetime) (now : datetime)
    (markets : list Market.t) :
  ((exists views, enrich fromisoformat now markets = inr views)
   <-> Forall (enriches fromisoformat now) markets)
  /\ (forall e : exn,
        enrich fromisoformat now markets = inl e
        <-> exists (before : list Market.t) (market : Market.t) (rest : list Market.t),
              markets = (before ++ market :: rest)%list
              /\ Forall (enriches fromisoformat now) before
              /\ enrich_one fromisoformat now market = inl e).
Proof.
  split.
  - apply enrich_returns_iff.
  - intros e. apply enrich_raises_iff.
Qed.

(** X4: a market whose close time carries no UTC offset ends the run:
    the captured [now] is aware, the subtraction raises [TypeError] at
    the first such market, and [get_markets_closing_soon] raises it
    whatever the other markets are, provided those before it get
    through the loop. *)
Theorem naive_close_time_raises_TypeError
    (Client : Type) (get_markets : Client -> Request.t -> result (Response.t * Client))
    (fromisoformat : string -> result datetime)
    (fuel : nat) (client client' : Client) (now_micros hours lo hi : Z)
    (before rest : list Market.t) (market : Market.t) (close_time : datetime) :
  time_window (utc now_micros) hours = inr (lo, hi) ->
  fetch_pages Client get_markets fuel client lo hi None []
  = Some (inr ((before ++ market :: rest)%list, client')) ->
  Forall (enriches fromisoformat (utc now_micros)) before ->
  normalize_close_time fromisoformat market = inr close_time ->
  tz_aware close_time = false ->
  get_markets_closing_soon Client get_markets fromisoformat fuel client now_micros hours
  = Some (inl TypeError).
Proof.
  intros Hw Hf Hb Hc Hn. unfold get_markets_closing_soon. rewrite Hw, Hf.
  assert (He : enrich fromisoformat (utc now_micros) (before ++ market :: rest)%list
               = inl TypeError).
  { apply enrich_raises_iff. exists before, market, rest.
    split; [reflexivity |]. split; [exact Hb |].
    unfold enrich_one. rewrite Hc. cbn [bind].
    unfold hours_left, datetime_sub. rewrite Hn. reflexivity. }
  rewrite He. reflexivity.
Qed.

Lemma naive_close_time_raises_TypeError_witness :
  get_markets_closing_soon (list Response.t) scripted no_fromisoformat 1
    [{| Response.markets :=
          [closing_soon; naive_market "naive" (sample_now + 1800000000); closing_beyond];
        Response.cursor := None |}]
    sample_now HOURS_THRESHOLD
  = Some (inl TypeError).
Proof.
  apply (naive_close_time_raises_TypeError (list Response.t) scripted no_fromisoformat 1
           [{| Response.markets :=
                 [closing_soon; naive_market "naive" (sample_now + 1800000000);
                  closing_beyond];
               Response.cursor := None |}]
           [] sample_now HOURS_THRESHOLD 1700000000 1700086400
           [closing_soon] [closing_beyond]
           (naive_market "naive" (sample_now + 1800000000))
           {| micros := sample_now + 1800000000; tz_aware := false |}).
  - vm_compute. reflexivity.
  - reflexivity.
  - constructor; [| constructor]. eexists. vm_compute. reflexivity.
  - reflexivity.
  - reflexivity.
Defined.

(** ** Close times given as strings *)

Lemma occurs_append (c : ascii) (s t : string) :
  occurs c (s ++ t) = occurs c s || occurs c t.
Proof.
  induction s as [| a s IH]; simpl; [reflexivity |].
  rewrite IH. apply orb_assoc.
Qed.

Lemma append_assoc (s t u : string) : (s ++ t) ++ u = s ++ (t ++ u).
Proof.
  induction s as [| a s IH]; simpl; [reflexivity | rewrite IH; reflexivity].
Qed.

Lemma replace_char_append (c : ascii) (by_ s t : string) :
  replace_char c by_ (s ++ t) = replace_char c by_ s ++ replace_char c by_ t.
Proof.
  induction s as [| a s IH]; simpl; [reflexivity |].
  rewrite IH. destruct (Ascii.eqb a c); simpl; [| reflexivity].
  symmetry. apply append_assoc.
Qed.

Lemma replace_char_absent (c : ascii) (by_ s : string) :
  occurs c s = false -> replace_char c by_ s = s.
Proof.
  induction s as [| a s IH]; simpl; [reflexivity |].
  intros H. apply orb_false_iff in H. destruct H as [Ha Hs].
  rewrite Ha, (IH Hs). reflexivity.
Qed.

Lemma replace_char_removes (c : ascii) (by_ s : string) :
  occurs c by_ = false -> occurs c (replace_char c by_ s) = false.
Proof.
  intros Hby. induction s as [| a s IH]; simpl; [reflexivity |].
  destruct (Ascii.eqb a c) eqn:Ha.
  - rewrite occurs_append, Hby, IH. reflexivity.
  - simpl. rewrite Ha, IH. reflexivity.
Qed.

Lemma replace_char_len (c : ascii) (by_ s : string) :
  continuation c = false ->
  (len (replace_char c by_ s) + occurrences c s
   = len s + occurrences c s * len by_)%nat.
Proof.
  intros Hc. induction s as [| a s IH]; simpl; [reflexivity |].
  destruct (Ascii.eqb a c) eqn:Ha; simpl.
  - apply Ascii.eqb_eq in Ha. subst a. rewrite Hc, len_append. lia.
  - destruct (continuation a); lia.
Qed.

(** X5: a close time given as a string is parsed after every [Z] in
    it, wherever it stands, has been replaced by [+00:00]: the string
    handed to the parser holds no [Z] and is 5 characters longer for
    each [Z] of the original; a string without [Z] is parsed as it is
    and a string ending in its only [Z] with the offset in its
    place. *)
Theorem close_time_text_normalised
    (fromisoformat : string -> result datetime) (market : Market.t) (text : string) :
  Market.close_time market = Market.Text text ->
  exists parsed : string,
    normalize_close_time fromisoformat market = fromisoformat parsed
    /\ occurs "Z" parsed = false
    /\ len parsed = (len text + 5 * occurrences "Z" text)%nat
    /\ (occurs "Z" text = false -> parsed = text)
    /\ (forall body : string,
          text = body ++ "Z" -> occurs "Z" body = false -> parsed = body ++ "+00:00")
    /\ (forall head tail : string,
          text = head ++ "Z" ++ tail ->
          parsed = replace_char "Z" "+00:00" head ++ "+00:00"
                   ++ replace_char "Z" "+00:00" tail).
Proof.
  intros H. exists (replace_char "Z" "+00:00" text).
  split; [unfold normalize_close_time; rewrite H; reflexivity |].
  split; [apply replace_char_removes; reflexivity |].
  split; [| split; [| split]].
  - pose proof (replace_char_len "Z" "+00:00" text eq_refl) as Hlen.
    change (len "+00:00") with 6%nat in Hlen. lia.
  - apply replace_char_absent.
  - intros body -> Hb. rewrite replace_char_append, (replace_char_absent _ _ _ Hb).
    reflexivity.
  - intros head tail ->. rewrite !replace_char_append. reflexivity.
Qed.

Lemma close_time_text_normalised_witness :
  exists parsed : string,
    normalize_close_time one_fromisoformat (text_market "soon" "2023-11-14T22:43:20Z")
    = one_fromisoformat parsed
    /\ occurs "Z" parsed = false
    /\ len parsed
       = (len "2023-11-14T22:43:20Z" + 5 * occurrences "Z" "2023-11-14T22:43:20Z")%nat
    /\ (occurs "Z" "2023-11-14T22:43:20Z" = false -> parsed = "2023-11-14T22:43:20Z")
    /\ (forall body : string,
          "2023-11-14T22:43:20Z" = body ++ "Z" -> occurs "Z" body = false ->
          parsed = body ++ "+00:00")
    /\ (forall head tail : string,
          "2023-11-14T22:43:20Z" = head ++ "Z" ++ tail ->
          parsed = replace_char "Z" "+00:00" head ++ "+00:00"
                   ++ replace_char "Z" "+00:00" tail).
Proof.
  apply (close_time_text_normalised one_fromisoformat
           (text_market "soon" "2023-11-14T22:43:20Z") "2023-11-14T22:43:20Z").
  reflexivity.
Defined.

Example close_time_text_enriched :
  enrich one_fromisoformat (utc sample_now)
    [text_market "soon" "2023-11-14T22:43:20Z"]
  = inr [view_of (text_market "soon" "2023-11-14T22:43:20Z") 0.5
           (sample_now + 1800000000)].
Proof. vm_compute. reflexivity. Qed.

(** ** Whole seconds and whole cents *)

Lemma zrange_In (n : nat) :
  forall a s : Z, a <= s < a + Z.of_nat n -> In s (zrange a n).
Proof.
  induction n as [| n IH]; intros a s H.
  - simpl in H. lia.
  - simpl. destruct (Z.eq_dec a s) as [-> | Hne]; [left; reflexivity |].
    right. apply IH. lia.
Qed.

Lemma checked_on_range (check : Z -> bool) (a : Z) (n : nat) :
  forallb check (zrange a n) = true ->
  forall s : Z, a <= s < a + Z.of_nat n -> check s = true.
Proof.
  intros H s Hs. exact (proj1 (forallb_forall check (zrange a n)) H s (zrange_In n a s Hs)).
Qed.

Lemma time_cells_checked :
  forallb time_cell_checked (zrange 1 (Z.to_nat 86400)) = true.
Proof. vm_compute. reflexivity. Qed.

Lemma dollars_all_checked :
  forallb dollars_checked (zrange (-10000) (Z.to_nat 20001)) = true.
Proof. vm_compute. reflexivity. Qed.

(** X6: for a market that closes a whole number of seconds, from 1 to
    86400, after the captured [now], whatever that is, the enrichment
    loop keeps it and the time cell shows the whole minutes below one
    hour, the whole hours and minutes below 24 hours and "1d 0h" at 24
    hours, as integer arithmetic gives them, except that from one hour
    on a whole number of minutes may show one minute less: the binary
    hours lose the last minute, as 3660 seconds, shown as "1h 0m",
    do. *)
Theorem time_cell_of_whole_seconds :
  (forall now_micros seconds : Z,
      1 <= seconds <= 86400 ->
      exists (hours : float) (cell : string),
        hours_left (utc now_micros) (utc (now_micros + seconds * 1000000)) = inr hours
        /\ (0 <? hours)%float = true
        /\ format_time_until hours = inr cell
        /\ (cell = exact_time seconds
            \/ (3600 <= seconds < 86400 /\ seconds mod 60 = 0
                /\ cell = minute_short seconds)))
  /\ (forall now_micros : Z,
        exists hours : float,
          hours_left (utc now_micros) (utc (now_micros + 3660 * 1000000)) = inr hours
          /\ format_time_until hours = inr "1h 0m"
          /\ exact_time 3660 = "1h 1m").
Proof.
  split.
  - intros now_micros seconds Hs.
    pose proof (checked_on_range _ _ _ time_cells_checked seconds) as Hc.
    change (Z.of_nat (Z.to_nat 86400)) with 86400 in Hc. specialize (Hc ltac:(lia)).
    unfold time_cell_checked in Hc.
    rewrite hours_left_offset in Hc. rewrite hours_left_offset.
    destruct (seconds0 <- total_seconds (seconds * 1000000) ;; ret (seconds0 / 3600)%float)
      as [e | hours]; [discriminate |].
    apply andb_true_iff in Hc. destruct Hc as [Hpos Hc].
    destruct (format_time_until hours) as [e | cell] eqn:Hf; [discriminate |].
    exists hours, cell. split; [reflexivity |].
    split; [exact Hpos |]. split; [exact Hf |].
    apply orb_true_iff in Hc. destruct Hc as [Hc | Hc].
    + left. apply String.eqb_eq. exact Hc.
    + right. repeat (apply andb_true_iff in Hc; destruct Hc as [Hc ?]).
      split; [lia |]. split; [apply Z.eqb_eq; assumption |].
      apply String.eqb_eq. assumption.
  - intros now_micros. rewrite hours_left_offset.
    eexists. split; [vm_compute; reflexivity |].
    split; vm_compute; reflexivity.
Qed.

Lemma time_cell_of_whole_seconds_witness :
  exists (hours : float) (cell : string),
    hours_left (utc sample_now) (utc (sample_now + 5400 * 1000000)) = inr hours
    /\ (0 <? hours)%float = true
    /\ format_time_until hours = inr cell
    /\ (cell = exact_time 5400
        \/ (3600 <= 5400 < 86400 /\ 5400 mod 60 = 0 /\ cell = minute_short 5400)).
Proof.
  apply (proj1 time_cell_of_whole_seconds sample_now 5400). lia.
Defined.

(** X7: from -10000 to 10000 cents, which holds every price and every
    spread of the exchange, [cents_to_dollars] gives the exact amount:
    the dollar sign, a minus sign for a negative amount, the whole
    dollars, a point and the two digits of the cents; the passage
    through a binary float loses nothing there. *)
Theorem cents_to_dollars_exact (cents : Z) :
  -10000 <= cents <= 10000 ->
  cents_to_dollars cents = inr (exact_dollars cents).
Proof.
  intros Hc.
  pose proof (checked_on_range _ _ _ dollars_all_checked cents) as H.
  change (Z.of_nat (Z.to_nat 20001)) with 20001 in H. specialize (H ltac:(lia)).
  unfold dollars_checked in H.
  destruct (cents_to_dollars cents) as [e | s]; [discriminate |].
  apply String.eqb_eq in H. rewrite H. reflexivity.
Qed.

Lemma cents_to_dollars_exact_witness :
  cents_to_dollars 37 = inr (exact_dollars 37).
Proof.
  apply (cents_to_dollars_exact 37). lia.
Defined.

(* ================================================================= *)
(** * Further properties of the rendering *)

(** ** The rows of the table *)

Lemma add_rows_raises (markets_data : list View.t) :
  forall (table : Console.table) (count : Z) (e : exn),
    add_rows markets_data table count = inl e
    <-> exists (before : list View.t) (data : View.t) (rest : list View.t),
          markets_data = (before ++ data :: rest)%list
          /\ Forall renders before
          /\ render_row data = inl e.
Proof.
  induction markets_data as [| d ds IH]; intros table count e.
  - split; [discriminate |].
    intros (before & data & rest & H & _). destruct before; discriminate.
  - cbn [add_rows]. destruct (render_row d) as [e1 | [row wide]] eqn:Hr; cbn [bind].
    + split.
      * intros H. injection H as ->. exists [], d, ds.
        split; [reflexivity |]. split; [constructor | exact Hr].
      * intros (before & data & rest & Hm & Hb & He).
        destruct before as [| b before]; simpl in Hm; injection Hm as <- ->.
        -- rewrite Hr in He. injection He as ->. reflexivity.
        -- inversion Hb as [| ? ? [r Hb1] _]; subst. rewrite Hr in Hb1. discriminate.
    + rewrite IH. split.
      * intros (before & data & rest & -> & Hb & He).
        exists (d :: before), data, rest. split; [reflexivity |].
        split; [constructor; [eexists; exact Hr | exact Hb] | exact He].
      * intros (before & data & rest & Hm & Hb & He).
        destruct before as [| b before]; simpl in Hm; injection Hm as <- ->.
        -- rewrite Hr in He. discriminate.
        -- inversion Hb; subst. exists before, data, rest. auto.
Qed.

Lemma add_rows_returns (markets_data : list View.t) :
  forall (table : Console.table) (count : Z),
    (exists r, add_rows markets_data table count = inr r) <-> Forall renders markets_data.
Proof.
  induction markets_data as [| d ds IH]; intros table count.
  - split; [constructor | eexists; reflexivity].
  - cbn [add_rows]. destruct (render_row d) as [e | [row wide]] eqn:Hr; cbn [bind].
    + split.
      * intros (r & H). discriminate.
      * intros H. inversion H as [| ? ? [r Hd] _]; subst. rewrite Hr in Hd. discriminate.
    + rewrite IH. split.
      * intros H. constructor; [eexists; exact Hr | exact H].
      * intros H. inversion H; assumption.
Qed.

Lemma threshold_dollars : cents_to_dollars SPREAD_THRESHOLD_CENTS = inr "$0.10".
Proof. vm_compute. reflexivity. Qed.

Lemma display_markets_rows (markets_data : list View.t) (out : list Console.printed) :
  markets_data <> [] ->
  display_markets markets_data = inr out ->
  exists (rows : list Console.row) (summary : list Console.printed),
    Forall2 rendered markets_data rows
    /\ out = (Console.Table {| Console.title := Console.title empty_table;
                               Console.columns := Console.columns empty_table;
                               Console.rows := rows |}
              :: Console.Line (total_line markets_data) :: summary)%list.
Proof.
  intros Hne H. destruct markets_data as [| data rest]; [contradiction |].
  unfold display_markets in H. bind_inv H. destruct a as [table count].
  destruct (add_rows_spec _ _ _ _ _ Ha) as (rows & Hrows & -> & ->).
  exists rows. destruct (0 <? 0 + wide_count (data :: rest)).
  - rewrite threshold_dollars in H. simpl in H. injection H as <-.
    eexists. split; [exact Hrows | reflexivity].
  - injection H as <-. eexists. split; [exact Hrows | reflexivity].
Qed.

Lemma display_markets_raises (markets_data : list View.t) (e : exn) :
  display_markets markets_data = inl e
  <-> exists (before : list View.t) (data : View.t) (rest : list View.t),
        markets_data = (before ++ data :: rest)%list
        /\ Forall renders before
        /\ render_row data = inl e.
Proof.
  destruct markets_data as [| d ds].
  - split; [discriminate |].
    intros (before & data & rest & H & _). destruct before; discriminate.
  - rewrite <- (add_rows_raises (d :: ds) empty_table 0 e).
    unfold display_markets.
    destruct (add_rows (d :: ds) empty_table 0) as [e1 | [table count]]; cbn [bind].
    + split; intros H; injection H as ->; reflexivity.
    + destruct (0 <? count).
      * rewrite threshold_dollars. simpl. split; discriminate.
      * split; discriminate.
Qed.

Lemma display_markets_returns (markets_data : list View.t) :
  (exists out, display_markets markets_data = inr out) <-> Forall renders markets_data.
Proof.
  destruct markets_data as [| d ds].
  - split; [constructor | eexists; reflexivity].
  - rewrite <- (add_rows_returns (d :: ds) empty_table 0).
    unfold display_markets.
    destruct (add_rows (d :: ds) empty_table 0) as [e | [table count]]; cbn [bind].
    + split; intros (r & H); discriminate.
    + split; intros _; [eexists; reflexivity |].
      destruct (0 <? count).
      * rewrite threshold_dollars. eexists. reflexivity.
      * eexists. reflexivity.
Qed.

(** X8: [display_markets] prints the single line that no market is
    closing exactly when its list is empty; for a list that is not
    empty the first thing printed is the table, with as many rows as
    there are views, and the line with the total follows it. *)
Theorem display_markets_empty_or_table
    (markets_data : list View.t) (out : list Console.printed) :
  display_markets markets_data = inr out ->
  (markets_data = []
   <-> out = [Console.Line "[yellow]No markets closing in the next 24 hours.[/yellow]"])
  /\ (markets_data <> []
      <-> exists (table : Console.table) (summary : list Console.printed),
            out = (Console.Table table
                   :: Console.Line (total_line markets_data) :: summary)%list
            /\ List.length (Console.rows table) = List.length markets_data).
Proof.
  intros H. destruct markets_data as [| d ds].
  - injection H as <-. split.
    + split; reflexivity.
    + split; [intros Hne; contradiction |].
      intros (table & summary & Hout & _). discriminate.
  - destruct (display_markets_rows (d :: ds) out ltac:(discriminate) H)
      as (rows & summary & Hrows & ->).
    split.
    + split; discriminate.
    + split; [| discriminate]. intros _. eexists. exists summary.
      split; [reflexivity |]. simpl. symmetry. exact (Forall2_length Hrows).
Qed.

Lemma display_markets_empty_or_table_witness :
  (sample_views = []
   <-> match display_markets sample_views with inr out => out | inl _ => [] end
       = [Console.Line "[yellow]No markets closing in the next 24 hours.[/yellow]"])
  /\ (sample_views <> []
      <-> exists (table : Console.table) (summary : list Console.printed),
            match display_markets sample_views with inr out => out | inl _ => [] end
            = (Console.Table table
               :: Console.Line (total_line sample_views) :: summary)%list
            /\ List.length (Console.rows table) = List.length sample_views).
Proof.
  apply (display_markets_empty_or_table sample_views).
  vm_compute. reflexivity.
Defined.

(** X9: [display_markets] prints all or nothing: it returns what it
    printed exactly when every view renders to a row, and otherwise
    raises the exception of the first view that does not, before the
    table or any line has been printed. *)
Theorem display_markets_all_or_nothing (markets_data : list View.t) :
  ((exists out, display_markets markets_data = inr out) <-> Forall renders markets_data)
  /\ (forall e : exn,
        display_markets markets_data = inl e
        <-> exists (before : list View.t) (data : View.t) (rest : list View.t),
              markets_data = (before ++ data :: rest)%list
              /\ Forall renders before
              /\ render_row data = inl e).
Proof.
  split.
  - apply display_markets_returns.
  - intros e. apply display_markets_raises.
Qed.

(** ** Cells *)

Lemma cents_to_dollars_not_dash (cents : Z) (s : string) :
  cents_to_dollars cents = inr s -> s <> "-".
Proof.
  intros H. destruct (cents_to_dollars_dollar _ _ H) as [digits ->]. discriminate.
Qed.

Lemma or_else_zero (v : option Z) (d : Z) :
  or_else v d = 0 <-> unquoted v /\ d = 0.
Proof.
  unfold or_else, truthy, unquoted. destruct v as [n |].
  - destruct (Z.eqb_spec n 0) as [-> | Hn]; simpl.
    + split; [intros ->; auto | intros [_ ->]; reflexivity].
    + split; [intros H; contradiction |].
      intros [[H | H] _]; [discriminate | injection H as ->; contradiction].
  - split; [intros ->; auto | intros [_ ->]; reflexivity].
Qed.

Lemma yes_price_of_zero (market : Market.t) :
  yes_price_of market = 0
  <-> unquoted (Market.yes_bid market) /\ unquoted (Market.last_price market).
Proof.
  unfold yes_price_of. rewrite !or_else_zero. tauto.
Qed.

Lemma no_price_of_zero (market : Market.t) :
  no_price_of market = 0
  <-> unquoted (Market.no_bid market)
      /\ (yes_price_of market = 0 \/ yes_price_of market = 100).
Proof.
  unfold no_price_of. cbv zeta. rewrite or_else_zero. unfold truthy.
  destruct (Z.eqb_spec (yes_price_of market) 0) as [E | E]; cbn [negb].
  - rewrite E. tauto.
  - split; intros [Hn H]; (split; [exact Hn |]); [right; lia |].
    destruct H as [H | H]; [contradiction | lia].
Qed.

Lemma price_cell_dash (price : Z) (cell : string) :
  price_cell price = inr cell -> (cell = "-" <-> price = 0).
Proof.
  unfold price_cell, truthy. destruct (Z.eqb_spec price 0) as [-> | Hn]; simpl.
  - intros H. injection H as <-. split; reflexivity.
  - intros H. split; [| intros E; contradiction].
    intros ->. exfalso. exact (cents_to_dollars_not_dash _ _ H eq_refl).
Qed.

Lemma price_cell_dollar (price : Z) (cell : string) :
  price_cell price = inr cell -> cell <> "-" ->
  exists digits, cell = String "$" digits.
Proof.
  unfold price_cell. intros H Hd. destruct (truthy price).
  - exact (cents_to_dollars_dollar _ _ H).
  - injection H as H. symmetry in H. contradiction.
Qed.

(** X10: in a rendered row the yes cell is the dash exactly when the
    market has neither a yes bid nor a last price, an amount of zero
    counting as none; the no cell is the dash exactly when there is no
    no bid and the yes price is zero or 100, whose complement is zero;
    any other price cell starts with the dollar sign. *)
Theorem price_cell_dash_iff_absent (data : View.t) (row : Console.row) (wide : bool) :
  render_row data = inr (row, wide) ->
  (Console.yes_cell row = "-"
   <-> unquoted (Market.yes_bid (View.market data))
       /\ unquoted (Market.last_price (View.market data)))
  /\ (Console.no_cell row = "-"
      <-> unquoted (Market.no_bid (View.market data))
          /\ (yes_price_of (View.market data) = 0
              \/ yes_price_of (View.market data) = 100))
  /\ (Console.yes_cell row <> "-" ->
      exists digits, Console.yes_cell row = String "$" digits)
  /\ (Console.no_cell row <> "-" ->
      exists digits, Console.no_cell row = String "$" digits).
Proof.
  intros H. destruct (render_row_inv _ _ _ H) as (_ & _ & Hy & Hn & _).
  split; [| split; [| split]].
  - rewrite (price_cell_dash _ _ Hy). apply yes_price_of_zero.
  - rewrite (price_cell_dash _ _ Hn). apply no_price_of_zero.
  - exact (price_cell_dollar _ _ Hy).
  - exact (price_cell_dollar _ _ Hn).
Qed.

Lemma price_cell_dash_iff_absent_witness :
  ("$1.00" = "-"
   <-> unquoted (Some 100) /\ unquoted None)
  /\ ("-" = "-"
      <-> unquoted None
          /\ (yes_price_of (market_with (Some 100) None None None) = 0
              \/ yes_price_of (market_with (Some 100) None None None) = 100))
  /\ ("$1.00" <> "-" -> exists digits, "$1.00" = String "$" digits)
  /\ ("-" <> "-" -> exists digits, "-" = String "$" digits).
Proof.
  apply (price_cell_dash_iff_absent
           (view_of (market_with (Some 100) None None None) 0.5 0)
           {| Console.market_cell := "";
              Console.yes_cell := "$1.00";
              Console.no_cell := "-";
              Console.spread_cell := "-";
              Console.time_cell := "30m" |} false).
  vm_compute. reflexivity.
Defined.

(** X11: the spread cell of a market with a yes bid and a yes ask, both
    present, follows the difference [ask - bid]: at zero or below it is
    the plain dash, so that a tight market, bid and ask equal, shows
    what a market without quotes shows; from 1 to 10 it is the plain
    dollar amount; from 11 on it is the dollar amount in the flagged
    style and the row counts as wide. *)
Theorem spread_cell_by_difference (market : Market.t) (bid ask : Z) :
  quoted (Market.yes_bid market) bid ->
  quoted (Market.yes_ask market) ask ->
  (ask - bid <= 0 -> spread_cell_of market = inr ("-", false))
  /\ (ask = bid ->
      forall other : Market.t,
        unquoted (Market.yes_bid other) \/ unquoted (Market.yes_ask other) ->
        spread_cell_of market = spread_cell_of other)
  /\ (0 < ask - bid <= 10 ->
      spread_cell_of market
      = (amount <- cents_to_dollars (ask - bid) ;; ret (amount, false)))
  /\ (10 < ask - bid ->
      spread_cell_of market
      = (amount <- cents_to_dollars (ask - bid) ;;
         ret ("[bold red]" ++ amount ++ " ![/bold red]", true))).
Proof.
  intros Hb Ha. unfold spread_cell_of.
  rewrite (calculate_spread_quoted market bid ask Hb Ha). unfold SPREAD_THRESHOLD_CENTS.
  split; [| split; [| split]].
  - intros H.
    replace (10 <? ask - bid) with false by (symmetry; apply Z.ltb_ge; lia).
    replace (0 <? ask - bid) with false by (symmetry; apply Z.ltb_ge; lia).
    reflexivity.
  - intros -> other Ho. rewrite (calculate_spread_unquoted other Ho).
    rewrite Z.sub_diag. reflexivity.
  - intros H.
    replace (10 <? ask - bid) with false by (symmetry; apply Z.ltb_ge; lia).
    replace (0 <? ask - bid) with true by (symmetry; apply Z.ltb_lt; lia).
    destruct (cents_to_dollars (ask - bid)); reflexivity.
  - intros H.
    replace (10 <? ask - bid) with true by (symmetry; apply Z.ltb_lt; lia).
    replace (0 <? ask - bid) with true by (symmetry; apply Z.ltb_lt; lia).
    destruct (cents_to_dollars (ask - bid)); reflexivity.
Qed.

Lemma spread_cell_by_difference_witness :
  spread_cell_of (market_with (Some 50) (Some 50) None None) = inr ("-", false).
Proof.
  refine (proj1 (spread_cell_by_difference (market_with (Some 50) (Some 50) None None)
                   50 50 _ _) _).
  - split; [reflexivity | discriminate].
  - split; [reflexivity | discriminate].
  - discriminate.
Defined.

Example spread_cell_at_the_threshold :
  spread_cell_of (market_with (Some 40) (Some 50) None None) = inr ("$0.10", false)
  /\ spread_cell_of (market_with (Some 40) (Some 51) None None)
     = inr ("[bold red]$0.11 ![/bold red]", true).
Proof. split; vm_compute; reflexivity. Qed.

(** ** Titles and the width of their column *)

(** X12: the title cell is never longer than 50 characters, the
    [max_width] of the Market column: a title of up to 47 characters
    keeps its length and any longer one takes exactly 50, so that a
    title of 48 or 49 characters comes out longer than it went in. *)
Theorem title_cell_fits_column (title : string) :
  len (display_title title) = (if (47 <? len title)%nat then 50 else len title)%nat
  /\ (len (display_title title) <= 50)%nat
  /\ (48 <= len title <= 49 -> len title < len (display_title title))%nat
  /\ option_map Console.max_width (nth_error (Console.columns empty_table) 0)
     = Some (Some 50).
Proof.
  pose proof (display_title_len title) as Hlen.
  split; [exact Hlen |]. split; [| split].
  - rewrite Hlen. destruct (47 <? len title)%nat eqn:E; [lia |].
    apply Nat.ltb_ge in E. lia.
  - intros H. rewrite Hlen.
    replace (47 <? len title)%nat with true by (symmetry; apply Nat.ltb_lt; lia).
    lia.
  - reflexivity.
Qed.

(* ================================================================= *)
(** * Further properties of [main] *)

(** ** Credentials *)

Lemma set_value_none (v : option string) : set_value v = None <-> unset v.
Proof.
  unfold set_value, unset. destruct v as [[| a s] |]; simpl.
  - split; auto.
  - split; [discriminate | intros [H | H]; discriminate].
  - split; auto.
Qed.

Lemma set_value_some (v : option string) (s : string) :
  set_value v = Some s <-> v = Some s /\ s <> "".
Proof.
  unfold set_value. destruct v as [[| a t] |]; simpl.
  - split; [discriminate | intros [H Hs]; injection H as <-; contradiction].
  - split.
    + intros H. injection H as <-. split; [reflexivity | discriminate].
    + intros [H _]. exact H.
  - split; [discriminate | intros [H _]; discriminate].
Qed.

(** X13: [load_credentials] returns the key id and the key exactly when
    [KALSHI_API_KEY_ID] is set and not empty, [KALSHI_PRIVATE_KEY_PATH]
    is set and not empty, a file exists at that path and its text can
    be read; the pair returned is the value of the first variable and
    the text of that file.  The checks come in this order: a key id
    that is not set is reported whatever the path and the files are, a
    path that is not set before any file is looked at, and a file that
    does not exist by its path, without being read. *)
Theorem load_credentials_returns_iff
    (getenv : string -> option string) (path_exists : string -> bool)
    (read_text : string -> raised + string) :
  (forall api_key_id private_key : string,
      load_credentials getenv path_exists read_text = inr (api_key_id, private_key)
      <-> getenv "KALSHI_API_KEY_ID" = Some api_key_id
          /\ api_key_id <> ""
          /\ exists path : string,
               getenv "KALSHI_PRIVATE_KEY_PATH" = Some path
               /\ path <> ""
               /\ path_exists path = true
               /\ read_text path = inr private_key)
  /\ (unset (getenv "KALSHI_API_KEY_ID") ->
      forall (path_exists' : string -> bool) (read_text' : string -> raised + string),
        load_credentials getenv path_exists' read_text'
        = inl (ValueErrorOf "KALSHI_API_KEY_ID not set in environment"))
  /\ (~ unset (getenv "KALSHI_API_KEY_ID") ->
      unset (getenv "KALSHI_PRIVATE_KEY_PATH") ->
      forall (path_exists' : string -> bool) (read_text' : string -> raised + string),
        load_credentials getenv path_exists' read_text'
        = inl (ValueErrorOf "KALSHI_PRIVATE_KEY_PATH not set in environment"))
  /\ (forall path : string,
        ~ unset (getenv "KALSHI_API_KEY_ID") ->
        getenv "KALSHI_PRIVATE_KEY_PATH" = Some path ->
        path <> "" ->
        path_exists path = false ->
        forall read_text' : string -> raised + string,
          load_credentials getenv path_exists read_text'
          = inl (FileNotFoundError ("Private key not found: " ++ path))).
Proof.
  split; [| split; [| split]].
  - intros api_key_id private_key. unfold load_credentials. split.
    + intros H.
      destruct (set_value (getenv "KALSHI_API_KEY_ID")) as [id |] eqn:Hid;
        [| discriminate].
      destruct (set_value (getenv "KALSHI_PRIVATE_KEY_PATH")) as [path |] eqn:Hpath;
        [| discriminate].
      destruct (path_exists path) eqn:He; [| discriminate]. simpl in H.
      destruct (read_text path) as [e | text] eqn:Hr; [discriminate |].
      injection H as -> ->.
      apply set_value_some in Hid. apply set_value_some in Hpath.
      split; [exact (proj1 Hid) |]. split; [exact (proj2 Hid) |].
      exists path. split; [exact (proj1 Hpath) |]. split; [exact (proj2 Hpath) |].
      split; assumption.
    + intros (Hid & Hne & path & Hpath & Hpne & He & Hr).
      rewrite (proj2 (set_value_some _ _) (conj Hid Hne)).
      rewrite (proj2 (set_value_some _ _) (conj Hpath Hpne)).
      rewrite He, Hr. reflexivity.
  - intros H path_exists' read_text'. unfold load_credentials.
    rewrite (proj2 (set_value_none _) H). reflexivity.
  - intros Hid H path_exists' read_text'. unfold load_credentials.
    destruct (set_value (getenv "KALSHI_API_KEY_ID")) eqn:E.
    + rewrite (proj2 (set_value_none _) H). reflexivity.
    + exfalso. apply Hid. apply set_value_none. exact E.
  - intros path Hid Hpath Hpne He read_text'. unfold load_credentials.
    destruct (set_value (getenv "KALSHI_API_KEY_ID")) eqn:E.
    + rewrite (proj2 (set_value_some _ _) (conj Hpath Hpne)), He. reflexivity.
    + exfalso. apply Hid. apply set_value_none. exact E.
Qed.

Example load_credentials_empty_key_id :
  load_credentials
    (fun name => if String.eqb name "KALSHI_API_KEY_ID" then Some "" else None)
    sample_exists sample_read
  = inl (ValueErrorOf "KALSHI_API_KEY_ID not set in environment").
Proof. reflexivity. Qed.

(** ** The run as a whole *)

Section MainProperties.
Variable getenv : string -> option string.
Variable path_exists : string -> bool.
Variable read_text : string -> raised + string.
Variable Client : Type.
Variable KalshiClient : Configuration -> result Client.
Variable get_exchange_status : Client -> result (bool * Client).
Variable get_markets : Client -> Request.t -> result (Response.t * Client).
Variable fromisoformat : string -> result datetime.
Variable str_exn : exn -> string.

Lemma report_says (e : raised) : Forall is_say (report str_exn e).
Proof.
  destruct e as [m | m | e]; [repeat constructor | repeat constructor |].
  destruct e as [| | | | status reason];
    [repeat constructor | repeat constructor | repeat constructor | repeat constructor |].
  simpl. constructor; [exact I |].
  destruct (status =? 401); [repeat constructor |].
  destruct (status =? 403); repeat constructor.
Qed.

Lemma opening_says (trading_active : bool) : Forall is_say (opening trading_active).
Proof. destruct trading_active; repeat constructor. Qed.

Lemma try_main_connected (fuel : nat) (now_micros : Z) (api_key_id private_key : string)
    (client client1 : Client) (trading_active : bool) :
  load_credentials getenv path_exists read_text = inr (api_key_id, private_key) ->
  create_client Client KalshiClient api_key_id private_key = inr client ->
  get_exchange_status client = inr (trading_active, client1) ->
  try_main getenv path_exists read_text Client KalshiClient get_exchange_status
    get_markets fromisoformat fuel now_micros
  = match get_markets_closing_soon Client get_markets fromisoformat fuel client1
            now_micros HOURS_THRESHOLD with
    | None => None
    | Some (inl e) => Some (opening trading_active, inl (Runtime e))
    | Some (inr (views, _)) =>
        match display_markets views with
        | inl e =>
            Some ((opening trading_active ++ [found (List.length views)])%list,
                  inl (Runtime e))
        | inr shown =>
            Some ((opening trading_active
                   ++ found (List.length views) :: map Render shown)%list, inr tt)
        end
    end.
Proof.
  intros Hl Hc Hs. unfold try_main. rewrite Hl, Hc, Hs.
  destruct (get_markets_closing_soon Client get_markets fromisoformat fuel client1
              now_micros HOURS_THRESHOLD) as [[e | [views client2]] |];
    [destruct trading_active; reflexivity | | reflexivity].
  destruct (display_markets views); destruct trading_active; reflexivity.
Qed.

Lemma try_main_raises (fuel : nat) (now_micros : Z) (out : list output) (e : raised) :
  try_main getenv path_exists read_text Client KalshiClient get_exchange_status
    get_markets fromisoformat fuel now_micros = Some (out, inl e) ->
  Forall is_say out /\ exists rest : list output, out = (banner ++ rest)%list.
Proof.
  intros H.
  destruct (load_credentials getenv path_exists read_text) as [e1 | [id key]] eqn:Hl.
  { unfold try_main in H. rewrite Hl in H. injection H as <- _.
    split; [repeat constructor | exists []; reflexivity]. }
  destruct (create_client Client KalshiClient id key) as [e1 | client] eqn:Hc.
  { unfold try_main in H. rewrite Hl, Hc in H. injection H as <- _.
    split; [repeat constructor | exists [connecting]; reflexivity]. }
  destruct (get_exchange_status client) as [e1 | [active client1]] eqn:Hs.
  { unfold try_main in H. rewrite Hl, Hc, Hs in H. injection H as <- _.
    split; [repeat constructor | exists [connecting]; reflexivity]. }
  rewrite (try_main_connected _ _ _ _ _ _ _ Hl Hc Hs) in H.
  destruct (get_markets_closing_soon Client get_markets fromisoformat fuel client1
              now_micros HOURS_THRESHOLD) as [[e1 | [views client2]] |];
    [| | discriminate].
  - injection H as <- _. split; [apply opening_says |].
    destruct active; eexists; reflexivity.
  - destruct (display_markets views); [| discriminate].
    injection H as <- _. split.
    + destruct active; repeat constructor.
    + destruct active; eexists; reflexivity.
Qed.

Lemma try_main_returns (fuel : nat) (now_micros : Z) (out : list output) (u : unit) :
  try_main getenv path_exists read_text Client KalshiClient get_exchange_status
    get_markets fromisoformat fuel now_micros = Some (out, inr u) ->
  exists (api_key_id private_key : string) (client client1 client2 : Client)
         (trading_active : bool) (views : list View.t) (shown : list Console.printed),
    load_credentials getenv path_exists read_text = inr (api_key_id, private_key)
    /\ create_client Client KalshiClient api_key_id private_key = inr client
    /\ get_exchange_status client = inr (trading_active, client1)
    /\ get_markets_closing_soon Client get_markets fromisoformat fuel client1
         now_micros HOURS_THRESHOLD = Some (inr (views, client2))
    /\ display_markets views = inr shown
    /\ out = (opening trading_active
              ++ found (List.length views) :: map Render shown)%list.
Proof.
  intros H.
  destruct (load_credentials getenv path_exists read_text) as [e1 | [id key]] eqn:Hl.
  { unfold try_main in H. rewrite Hl in H. discriminate. }
  destruct (create_client Client KalshiClient id key) as [e1 | client] eqn:Hc.
  { unfold try_main in H. rewrite Hl, Hc in H. discriminate. }
  destruct (get_exchange_status client) as [e1 | [active client1]] eqn:Hs.
  { unfold try_main in H. rewrite Hl, Hc, Hs in H. discriminate. }
  rewrite (try_main_connected _ _ _ _ _ _ _ Hl Hc Hs) in H.
  destruct (get_markets_closing_soon Client get_markets fromisoformat fuel client1
              now_micros HOURS_THRESHOLD) as [[e1 | [views client2]] |] eqn:Hg;
    [discriminate | | discriminate].
  destruct (display_markets views) as [e1 | shown] eqn:Hd; [discriminate |].
  injection H as <-.
  exists id, key, client, client1, client2, active, views, shown.
  repeat (split; [first [reflexivity | assumption] |]). reflexivity.
Qed.

Lemma closing_soon_breaks (lo hi : Z) (client : Client) (pages : list Response.t)
    (e : exn) (fuel : nat) (now_micros hours : Z) :
  time_window (utc now_micros) hours = inr (lo, hi) ->
  breaks get_markets lo hi client None pages e ->
  (List.length pages < fuel)%nat ->
  get_markets_closing_soon Client get_markets fromisoformat fuel client now_micros hours
  = Some (inl e).
Proof.
  intros Hw Hb Hf. unfold get_markets_closing_soon. rewrite Hw.
  rewrite (fetch_pages_breaks Client get_markets lo hi client None pages e Hb fuel [] Hf).
  reflexivity.
Qed.

Lemma closing_soon_exhausts (lo hi : Z) (client client' : Client)
    (pages : list Response.t) (fuel : nat) (now_micros hours : Z) :
  time_window (utc now_micros) hours = inr (lo, hi) ->
  exhausts get_markets lo hi client None pages client' ->
  (List.length pages <= fuel)%nat ->
  get_markets_closing_soon Client get_markets fromisoformat fuel client now_micros hours
  = Some (views <- enrich fromisoformat (utc now_micros) (all_markets pages) ;;
          ret (sort View.hours_until_close views, client')).
Proof.
  intros Hw He Hf. unfold get_markets_closing_soon. rewrite Hw.
  rewrite (fetch_pages_exhausts Client get_markets lo hi client None pages client' He
             fuel [] Hf).
  reflexivity.
Qed.
End MainProperties.

(** X14: the exit status of [main] is 0 or 1, and a table is printed
    only on the way to 0.  A run that ends with status 1 has printed
    lines of text only, the last of them by the [except] clause that
    caught the exception; a run ends with status 0 exactly after the
    credentials were loaded, the client was created, the exchange
    status was read, the markets were fetched with the client that the
    status call left, and every view was rendered: its output is the
    opening lines, the number of views found and what
    [display_markets] printed for these views, and nothing else. *)
Theorem main_renders_only_on_success
    (getenv : string -> option string) (path_exists : string -> bool)
    (read_text : string -> raised + string)
    (Client : Type) (KalshiClient : Configuration -> result Client)
    (get_exchange_status : Client -> result (bool * Client))
    (get_markets : Client -> Request.t -> result (Response.t * Client))
    (fromisoformat : string -> result datetime) (str_exn : exn -> string)
    (fuel : nat) (now_micros : Z) (out : list output) (code : Z) :
  main getenv path_exists read_text Client KalshiClient get_exchange_status
    get_markets fromisoformat str_exn fuel now_micros = Some (out, code) ->
  (code = 0 \/ code = 1)
  /\ (exists rest : list output, out = (banner ++ rest)%list)
  /\ (code = 1 ->
      Forall is_say out
      /\ exists (e : raised) (before : list output),
           out = (before ++ report str_exn e)%list
           /\ try_main getenv path_exists read_text Client KalshiClient
                get_exchange_status get_markets fromisoformat fuel now_micros
              = Some (before, inl e))
  /\ (code = 0 ->
      exists (api_key_id private_key : string) (client client1 client2 : Client)
             (trading_active : bool) (views : list View.t)
             (shown : list Console.printed),
        load_credentials getenv path_exists read_text = inr (api_key_id, private_key)
        /\ create_client Client KalshiClient api_key_id private_key = inr client
        /\ get_exchange_status client = inr (trading_active, client1)
        /\ get_markets_closing_soon Client get_markets fromisoformat fuel client1
             now_micros HOURS_THRESHOLD = Some (inr (views, client2))
        /\ display_markets views = inr shown
        /\ out = (opening trading_active
                  ++ found (List.length views) :: map Render shown)%list).
Proof.
  unfold main. intros H.
  destruct (try_main getenv path_exists read_text Client KalshiClient
              get_exchange_status get_markets fromisoformat fuel now_micros)
    as [[before [e | u]] |] eqn:Ht; [| | discriminate].
  - injection H as <- <-.
    destruct (try_main_raises _ _ _ _ _ _ _ _ _ _ _ _ Ht) as (Hsay & rest & ->).
    split; [right; reflexivity |]. split; [| split].
    + exists (rest ++ report str_exn e)%list. rewrite <- app_assoc. reflexivity.
    + intros _. split.
      * apply Forall_app. split; [exact Hsay | apply report_says].
      * exists e, (banner ++ rest)%list. split; reflexivity.
    + discriminate.
  - injection H as <- <-.
    destruct (try_main_returns _ _ _ _ _ _ _ _ _ _ _ _ Ht)
      as (id & key & client & client1 & client2 & active & views & shown
          & Hl & Hc & Hs & Hg & Hd & ->).
    split; [left; reflexivity |]. split; [| split].
    + eexists. unfold opening. rewrite <- app_assoc. reflexivity.
    + discriminate.
    + intros _. exists id, key, client, client1, client2, active, views, shown.
      repeat (split; [assumption |]). reflexivity.
Qed.

Lemma main_renders_only_on_success_witness :
  let shown :=
    match display_markets [view_of closing_soon 0.5 (sample_now + 1800000000)] with
    | inr shown => shown
    | inl _ => []
    end in
  let out := (opening false ++ found 1 :: map Render shown)%list in
  (0 = 0 \/ 0 = 1)
  /\ (exists rest : list output, out = (banner ++ rest)%list)
  /\ (0 = 1 ->
      Forall is_say out
      /\ exists (e : raised) (before : list output),
           out = (before ++ report sample_str e)%list
           /\ try_main sample_getenv sample_exists sample_read (list Response.t)
                (sample_connect (one_page [closing_soon])) (sample_status false)
                scripted no_fromisoformat 1 sample_now
              = Some (before, inl e))
  /\ (0 = 0 ->
      exists (api_key_id private_key : string)
             (client client1 client2 : list Response.t)
             (trading_active : bool) (views : list View.t)
             (shown' : list Console.printed),
        load_credentials sample_getenv sample_exists sample_read
        = inr (api_key_id, private_key)
        /\ create_client (list Response.t) (sample_connect (one_page [closing_soon]))
             api_key_id private_key = inr client
        /\ sample_status false client = inr (trading_active, client1)
        /\ get_markets_closing_soon (list Response.t) scripted no_fromisoformat 1
             client1 sample_now HOURS_THRESHOLD = Some (inr (views, client2))
        /\ display_markets views = inr shown'
        /\ out = (opening trading_active
                  ++ found (List.length views) :: map Render shown')%list).
Proof.
  intros shown out.
  apply (main_renders_only_on_success sample_getenv sample_exists sample_read
           (list Response.t) (sample_connect (one_page [closing_soon]))
           (sample_status false) scripted no_fromisoformat sample_str 1 sample_now).
  vm_compute. reflexivity.
Defined.

(** ** Inactive trading *)

(** X15: inactive trading does not change a run but for one line.  Of
    two exchanges that differ only in whether trading is active, the
    one where it is not makes [main] print the warning after the
    connection line; the lines that follow, the table and the exit
    status are the same, and the run goes on to fetch the markets all
    the same. *)
Theorem inactive_trading_only_warns
    (getenv : string -> option string) (path_exists : string -> bool)
    (read_text : string -> raised + string)
    (Client : Type) (KalshiClient : Configuration -> result Client)
    (status_active status_inactive : Client -> result (bool * Client))
    (get_markets : Client -> Request.t -> result (Response.t * Client))
    (fromisoformat : string -> result datetime) (str_exn : exn -> string)
    (fuel : nat) (now_micros : Z)
    (api_key_id private_key : string) (client client1 : Client) :
  load_credentials getenv path_exists read_text = inr (api_key_id, private_key) ->
  create_client Client KalshiClient api_key_id private_key = inr client ->
  status_active client = inr (true, client1) ->
  status_inactive client = inr (false, client1) ->
  match main getenv path_exists read_text Client KalshiClient status_active
          get_markets fromisoformat str_exn fuel now_micros with
  | Some (out, code) =>
      exists rest : list output,
        out = (banner ++ connecting :: fetching :: rest)%list
        /\ main getenv path_exists read_text Client KalshiClient status_inactive
             get_markets fromisoformat str_exn fuel now_micros
           = Some ((banner ++ connecting :: inactive_warning :: fetching :: rest)%list,
                   code)
  | None =>
      main getenv path_exists read_text Client KalshiClient status_inactive
        get_markets fromisoformat str_exn fuel now_micros = None
  end.
Proof.
  intros Hl Hc Ha Hi. unfold main.
  rewrite (try_main_connected _ _ _ _ _ _ _ _ _ _ _ _ _ _ true Hl Hc Ha).
  rewrite (try_main_connected _ _ _ _ _ _ _ _ _ _ _ _ _ _ false Hl Hc Hi).
  destruct (get_markets_closing_soon Client get_markets fromisoformat fuel client1
              now_micros HOURS_THRESHOLD) as [[e | [views client2]] |];
    [| | reflexivity].
  - eexists. split; reflexivity.
  - destruct (display_markets views); eexists; split; reflexivity.
Qed.

Lemma inactive_trading_only_warns_witness :
  match main sample_getenv sample_exists sample_read (list Response.t)
          (sample_connect (one_page [closing_soon])) (sample_status true)
          scripted no_fromisoformat sample_str 1 sample_now with
  | Some (out, code) =>
      exists rest : list output,
        out = (banner ++ connecting :: fetching :: rest)%list
        /\ main sample_getenv sample_exists sample_read (list Response.t)
             (sample_connect (one_page [closing_soon])) (sample_status false)
             scripted no_fromisoformat sample_str 1 sample_now
           = Some ((banner ++ connecting :: inactive_warning :: fetching :: rest)%list,
                   code)
  | None =>
      main sample_getenv sample_exists sample_read (list Response.t)
        (sample_connect (one_page [closing_soon])) (sample_status false)
        scripted no_fromisoformat sample_str 1 sample_now = None
  end.
Proof.
  apply (inactive_trading_only_warns sample_getenv sample_exists sample_read
           (list Response.t) (sample_connect (one_page [closing_soon]))
           (sample_status true) (sample_status false) scripted no_fromisoformat
           sample_str 1 sample_now "key-id" "PEM"
           (one_page [closing_soon]) (one_page [closing_soon]));
    reflexivity.
Defined.

(** ** Exceptions that end the run *)

(** X16: an API error during the fetch ends the run with status 1,
    however many pages had been fetched before it: after the opening
    lines [main] prints the status and the reason of the error, then
    the hint on the key for status 401, the hint on permissions for
    status 403 and no hint for any other status; no market of the
    pages fetched is shown and the number of markets found is not
    printed. *)
Theorem api_error_ends_run
    (getenv : string -> option string) (path_exists : string -> bool)
    (read_text : string -> raised + string)
    (Client : Type) (KalshiClient : Configuration -> result Client)
    (get_exchange_status : Client -> result (bool * Client))
    (get_markets : Client -> Request.t -> result (Response.t * Client))
    (fromisoformat : string -> result datetime) (str_exn : exn -> string)
    (fuel : nat) (now_micros : Z)
    (api_key_id private_key : string) (client client1 : Client)
    (trading_active : bool) (lo hi : Z) (pages : list Response.t)
    (status : Z) (reason : string) :
  load_credentials getenv path_exists read_text = inr (api_key_id, private_key) ->
  create_client Client KalshiClient api_key_id private_key = inr client ->
  get_exchange_status client = inr (trading_active, client1) ->
  time_window (utc now_micros) HOURS_THRESHOLD = inr (lo, hi) ->
  breaks get_markets lo hi client1 None pages (ApiException status reason) ->
  (List.length pages < fuel)%nat ->
  exists hint : list output,
    main getenv path_exists read_text Client KalshiClient get_exchange_status
      get_markets fromisoformat str_exn fuel now_micros
    = Some ((opening trading_active
             ++ Say ("[red]API Error (" ++ str_int status ++ "):[/red] " ++ reason) None
                :: hint)%list, 1)
    /\ (status = 401 ->
        hint = [Say (newline ++ "Check that your API key ID and private key are correct.")
                  None])
    /\ (status = 403 ->
        hint = [Say (newline ++ "Your API key may not have permission for this operation.")
                  None])
    /\ (status <> 401 -> status <> 403 -> hint = []).
Proof.
  intros Hl Hc Hs Hw Hb Hf. unfold main.
  rewrite (try_main_connected _ _ _ _ _ _ _ _ _ _ _ _ _ _ _ Hl Hc Hs).
  rewrite (closing_soon_breaks _ _ _ _ _ _ _ _ _ _ _ Hw Hb Hf).
  cbn [report]. eexists. split; [reflexivity |].
  destruct (Z.eqb_spec status 401) as [E1 | E1].
  - split; [reflexivity |]. split; [intros ->; discriminate | contradiction].
  - destruct (Z.eqb_spec status 403) as [E3 | E3].
    + split; [contradiction |]. split; [reflexivity | contradiction].
    + split; [contradiction |]. split; [contradiction | reflexivity].
Qed.

Lemma api_error_ends_run_witness :
  exists hint : list output,
    main sample_getenv sample_exists sample_read (list Response.t)
      (sample_connect []) (sample_status true) denied no_fromisoformat sample_str
      1 sample_now
    = Some ((opening true
             ++ Say ("[red]API Error (" ++ str_int 401 ++ "):[/red] " ++ "Unauthorized")
                  None
                :: hint)%list, 1)
    /\ (401 = 401 ->
        hint = [Say (newline ++ "Check that your API key ID and private key are correct.")
                  None])
    /\ (401 = 403 ->
        hint = [Say (newline ++ "Your API key may not have permission for this operation.")
                  None])
    /\ (401 <> 401 -> 401 <> 403 -> hint = []).
Proof.
  apply (api_error_ends_run sample_getenv sample_exists sample_read
           (list Response.t) (sample_connect []) (sample_status true) denied
           no_fromisoformat sample_str 1 sample_now "key-id" "PEM" [] [] true
           1700000000 1700086400 [] 401 "Unauthorized").
  - reflexivity.
  - reflexivity.
  - reflexivity.
  - vm_compute. reflexivity.
  - apply breaks_now. reflexivity.
  - simpl. lia.
Defined.

(** X17: a close time that [datetime.fromisoformat] rejects ends the
    run as a configuration error.  When the listing was read to its
    end and the first market that the enrichment loop cannot take is
    one whose close time is a string that the parser refuses with
    [ValueError], [main] ends with status 1 and prints, after the
    opening lines, the two lines of the clause for [ValueError]: the
    ones of a missing credential, the advice to fill in [.env]
    included.  No market is shown, not even those enriched before. *)
Theorem rejected_close_time_reported_as_configuration_error
    (getenv : string -> option string) (path_exists : string -> bool)
    (read_text : string -> raised + string)
    (Client : Type) (KalshiClient : Configuration -> result Client)
    (get_exchange_status : Client -> result (bool * Client))
    (get_markets : Client -> Request.t -> result (Response.t * Client))
    (fromisoformat : string -> result datetime) (str_exn : exn -> string)
    (fuel : nat) (now_micros : Z)
    (api_key_id private_key : string) (client client1 client2 : Client)
    (trading_active : bool) (lo hi : Z) (pages : list Response.t)
    (before rest : list Market.t) (market : Market.t) (text : string) :
  load_credentials getenv path_exists read_text = inr (api_key_id, private_key) ->
  create_client Client KalshiClient api_key_id private_key = inr client ->
  get_exchange_status client = inr (trading_active, client1) ->
  time_window (utc now_micros) HOURS_THRESHOLD = inr (lo, hi) ->
  exhausts get_markets lo hi client1 None pages client2 ->
  (List.length pages <= fuel)%nat ->
  all_markets pages = (before ++ market :: rest)%list ->
  Forall (enriches fromisoformat (utc now_micros)) before ->
  Market.close_time market = Market.Text text ->
  fromisoformat (replace_char "Z" "+00:00" text) = raise ValueError ->
  main getenv path_exists read_text Client KalshiClient get_exchange_status
    get_markets fromisoformat str_exn fuel now_micros
  = Some ((opening trading_active
           ++ report str_exn (ValueErrorOf (str_exn ValueError)))%list, 1)
  /\ report str_exn (ValueErrorOf (str_exn ValueError))
     = [Say ("[red]Configuration Error:[/red] " ++ str_exn ValueError) None;
        Say (newline ++ "Copy .env.example to .env and add your credentials.") None].
Proof.
  intros Hl Hc Hs Hw He Hf Hm Hb Ht Hp. split; [| reflexivity]. unfold main.
  rewrite (try_main_connected _ _ _ _ _ _ _ _ _ _ _ _ _ _ _ Hl Hc Hs).
  rewrite (closing_soon_exhausts _ _ _ _ _ _ _ _ _ _ _ Hw He Hf).
  assert (Hr : enrich fromisoformat (utc now_micros) (all_markets pages) = inl ValueError).
  { apply enrich_raises_iff. exists before, market, rest.
    split; [exact Hm |]. split; [exact Hb |].
    unfold enrich_one, normalize_close_time. rewrite Ht, Hp. reflexivity. }
  rewrite Hr. reflexivity.
Qed.

Lemma rejected_close_time_reported_as_configuration_error_witness :
  main sample_getenv sample_exists sample_read (list Response.t)
    (sample_connect (one_page [closing_soon; text_market "late" "tomorrow"]))
    (sample_status true) scripted no_fromisoformat sample_str 1 sample_now
  = Some ((opening true
           ++ report sample_str (ValueErrorOf (sample_str ValueError)))%list, 1)
  /\ report sample_str (ValueErrorOf (sample_str ValueError))
     = [Say ("[red]Configuration Error:[/red] " ++ sample_str ValueError) None;
        Say (newline ++ "Copy .env.example to .env and add your credentials.") None].
Proof.
  apply (rejected_close_time_reported_as_configuration_error
           sample_getenv sample_exists sample_read (list Response.t)
           (sample_connect (one_page [closing_soon; text_market "late" "tomorrow"]))
           (sample_status true) scripted no_fromisoformat sample_str 1 sample_now
           "key-id" "PEM"
           (one_page [closing_soon; text_market "late" "tomorrow"])
           (one_page [closing_soon; text_market "late" "tomorrow"]) []
           true 1700000000 1700086400
           (one_page [closing_soon; text_market "late" "tomorrow"])
           [closing_soon] [] (text_market "late" "tomorrow") "tomorrow").
  - reflexivity.
  - reflexivity.
  - reflexivity.
  - vm_compute. reflexivity.
  - apply exhausts_last; reflexivity.
  - simpl. lia.
  - reflexivity.
  - constructor; [| constructor]. eexists. vm_compute. reflexivity.
  - reflexivity.
  - reflexivity.
Defined.
